(** * emailpie: the address checker of [emailpie/utils.py]

  A shallow embedding of [emailpie/utils.py]: the RFC 2822 address
  pattern and its matcher, [mxlookup] over a mocked DNS service, and the
  [EmailChecker] class with its checks and [validate].

  Python values are modelled as follows.
  - [str] is a byte string (the module is Python 2 code: pydns' [DNS.Base],
    gevent), modelled as [string], a list of 8-bit [ascii] characters.
    [\w] is therefore the ASCII class [[a-zA-Z0-9_]].
  - [int] is [Z].
  - the error dictionaries [dict(severity=.., message=..)] are records.
  - [None] is [None] of an [option].
  - exceptions are the [Raise] branch of a result type. *)

From Stdlib Require Import ZArith NArith List Bool Ascii String Lia.
From Stdlib Require Import Sorting.Sorted Sorting.Permutation Sorting.Mergesort Orders.
Import ListNotations.

Local Open Scope string_scope.
Local Open Scope list_scope.

Set Implicit Arguments.

(** ** Python string operations used by the module *)

Module Str.

(** [s.split(sep)] for a one-character separator: every occurrence of
    [sep] cuts; the result is never empty. *)
Fixpoint split (sep : ascii) (s : string) : list string :=
  match s with
  | EmptyString => [EmptyString]
  | String c t =>
      if Ascii.eqb c sep then EmptyString :: split sep t
      else match split sep t with
           | h :: r => String c h :: r
           | [] => [String c EmptyString]
           end
  end.

(** [sep.join(l)]. *)
Fixpoint join (sep : string) (l : list string) : string :=
  match l with
  | [] => EmptyString
  | [x] => x
  | x :: r => String.append x (String.append sep (join sep r))
  end.

(** [l[i]]: [None] stands for [IndexError]. *)
Definition getitem {A} (l : list A) (i : nat) : option A := nth_error l i.

(** [s.startswith(p)]. *)
Definition startswith (p s : string) : bool := String.prefix p s.

(** Does [c] occur in [s]? *)
Fixpoint contains (c : ascii) (s : string) : bool :=
  match s with
  | EmptyString => false
  | String a t => Ascii.eqb a c || contains c t
  end.

(** The substring before the first occurrence of [c] (all of [s] when
    there is none). *)
Fixpoint before_first (c : ascii) (s : string) : string :=
  match s with
  | EmptyString => EmptyString
  | String a t => if Ascii.eqb a c then EmptyString else String a (before_first c t)
  end.

(** The substring after the first occurrence of [c], when there is one. *)
Fixpoint after_first (c : ascii) (s : string) : option string :=
  match s with
  | EmptyString => None
  | String a t => if Ascii.eqb a c then Some t else after_first c t
  end.

End Str.

(** ** Regular expressions as [re] reads the patterns of the module *)

Module Re.

(** Members of a bracketed character class. *)
Inductive item : Type :=
| Range (lo hi : N)      (* [\xLO-\xHI], bounds included *)
| One (c : N)            (* one character *)
| Word.                  (* [\w] *)

Inductive regex : Type :=
| Eps : regex
| Class (items : list item)          (* [...] *)
| Dot                                (* [.]: any character but a newline *)
| Seq (a b : regex)
| Alt (a b : regex)                  (* [a|b] *)
| Star (a : regex)                   (* [a*] *)
| Bol                                (* [^] *)
| Eol.                               (* [$] *)

Definition Plus (a : regex) : regex := Seq a (Star a).   (* [a+] *)
Definition Opt (a : regex) : regex := Alt a Eps.         (* [a?] *)
Definition Lit (c : ascii) : regex := Class [One (N_of_ascii c)].

Definition in_range (lo hi n : N) : bool := (lo <=? n)%N && (n <=? hi)%N.

Definition is_word (n : N) : bool :=
  in_range 97 122 n || in_range 65 90 n || in_range 48 57 n || (n =? 95)%N.

Definition in_item (n : N) (i : item) : bool :=
  match i with
  | Range lo hi => in_range lo hi n
  | One c => (n =? c)%N
  | Word => is_word n
  end.

Definition in_class (items : list item) (c : ascii) : bool :=
  existsb (in_item (N_of_ascii c)) items.

Definition newline : ascii := "010"%char.

(** Repetition: the suffixes reachable from [s] by zero or more rounds of
    [step].  A round that consumes nothing is not repeated, as in [re];
    every repeated round shortens the suffix, so [String.length s] rounds
    of fuel are enough. *)
Fixpoint star_from (step : string -> list string) (fuel : nat) (s : string)
  : list string :=
  s :: match fuel with
       | O => []
       | S k =>
           flat_map
             (fun s' =>
                if Nat.ltb (String.length s') (String.length s)
                then star_from step k s' else [])
             (step s)
       end.

(** [residuals n r s]: [s] is a suffix of the subject string, whose length
    is [n]; the result lists every suffix that can remain after [r] has
    matched a prefix of [s].  A backtracking matcher finds a match exactly
    when this list offers one. *)
Fixpoint residuals (n : nat) (r : regex) (s : string) : list string :=
  match r with
  | Eps => [s]
  | Class items =>
      match s with
      | String c t => if in_class items c then [t] else []
      | EmptyString => []
      end
  | Dot =>
      match s with
      | String c t => if Ascii.eqb c newline then [] else [t]
      | EmptyString => []
      end
  | Seq a b => flat_map (residuals n b) (residuals n a s)
  | Alt a b => residuals n a s ++ residuals n b s
  | Star a => star_from (residuals n a) (String.length s) s
  | Bol => if Nat.eqb (String.length s) n then [s] else []
  | Eol =>
      (* without re.MULTILINE, [$] holds at the end of the string and
         just before a newline that ends the string *)
      match s with
      | EmptyString => [s]
      | String c EmptyString => if Ascii.eqb c newline then [s] else []
      | _ => []
      end
  end.

(** [re.match(r, s) is not None]: a match starting at position 0; it need
    not reach the end of [s]. *)
Definition matches (r : regex) (s : string) : bool :=
  match residuals (String.length s) r s with
  | [] => false
  | _ :: _ => true
  end.

Fixpoint anchor_free (r : regex) : bool :=
  match r with
  | Bol | Eol => false
  | Seq a b | Alt a b => anchor_free a && anchor_free b
  | Star a => anchor_free a
  | _ => true
  end.

(** The language of an anchor-free pattern: the strings it derives as a
    whole. *)
Inductive Lang : regex -> string -> Prop :=
| L_Eps : Lang Eps EmptyString
| L_Class items c :
    in_class items c = true -> Lang (Class items) (String c EmptyString)
| L_Dot c : c <> newline -> Lang Dot (String c EmptyString)
| L_Seq a b u v : Lang a u -> Lang b v -> Lang (Seq a b) (String.append u v)
| L_AltL a b u : Lang a u -> Lang (Alt a b) u
| L_AltR a b u : Lang b u -> Lang (Alt a b) u
| L_Star0 a : Lang (Star a) EmptyString
| L_StarS a u v :
    Lang a u -> Lang (Star a) v -> Lang (Star a) (String.append u v).

End Re.

(** ** The pattern of [utils.py], production by production *)

Module Pattern.
Import Re.

Definition chr (c : ascii) : N := N_of_ascii c.

(* WSP = r'[ \t]' *)
Definition WSP : regex := Class [One 32; One 9].
(* CRLF = r'(?:\r\n)' *)
Definition CRLF : regex := Seq (Class [One 13]) (Class [One 10]).
(* NO_WS_CTL = r'\x01-\x08\x0b\x0c\x0f-\x1f\x7f': the inside of a class *)
Definition NO_WS_CTL : list item :=
  [Range 1 8; One 11; One 12; Range 15 31; One 127].
(* QUOTED_PAIR = r'(?:\\.)' *)
Definition QUOTED_PAIR : regex := Seq (Class [One 92]) Dot.
(* FWS = r'(?:(?:' + WSP + r'*' + CRLF + r')?' + WSP + r'+)' *)
Definition FWS : regex := Seq (Opt (Seq (Star WSP) CRLF)) (Plus WSP).
(* CTEXT = r'[' + NO_WS_CTL + r'\x21-\x27\x2a-\x5b\x5d-\x7e]' *)
Definition CTEXT : regex :=
  Class (NO_WS_CTL ++ [Range 33 39; Range 42 91; Range 93 126]).
(* CCONTENT = r'(?:' + CTEXT + r'|' + QUOTED_PAIR + r')' *)
Definition CCONTENT : regex := Alt CTEXT QUOTED_PAIR.
(* COMMENT = r'\((?:' + FWS + r'?' + CCONTENT + r')*' + FWS + r'?\)' *)
Definition COMMENT : regex :=
  Seq (Lit "(")
    (Seq (Star (Seq (Opt FWS) CCONTENT)) (Seq (Opt FWS) (Lit ")"))).
(* CFWS = r'(?:' + FWS + r'?' + COMMENT + ')*(?:' +
          FWS + '?' + COMMENT + '|' + FWS + ')'
   The pattern is two groups in a row; a [?] appended to it by the
   productions below binds to the second group only. *)
Definition CFWS_head : regex := Star (Seq (Opt FWS) COMMENT).
Definition CFWS_last : regex := Alt (Seq (Opt FWS) COMMENT) FWS.
Definition CFWS : regex := Seq CFWS_head CFWS_last.
(* CFWS + r'?' *)
Definition CFWS_q : regex := Seq CFWS_head (Opt CFWS_last).
(* ATEXT = r'[\w!#$%&\'\*\+\-/=\?\^`\{\|\}~]' *)
Definition ATEXT : regex :=
  Class [Word; One (chr "!"); One (chr "#"); One (chr "$"); One (chr "%");
         One (chr "&"); One (chr "'"); One (chr "*"); One (chr "+");
         One (chr "-"); One (chr "/"); One (chr "="); One (chr "?");
         One (chr "^"); One (chr "`"); One (chr "{"); One (chr "|");
         One (chr "}"); One (chr "~")].
(* ATOM = CFWS + r'?' + ATEXT + r'+' + CFWS + r'?' *)
Definition ATOM : regex := Seq CFWS_q (Seq (Plus ATEXT) CFWS_q).
(* DOT_ATOM_TEXT = ATEXT + r'+(?:\.' + ATEXT + r'+)*' *)
Definition DOT_ATOM_TEXT : regex :=
  Seq (Plus ATEXT) (Star (Seq (Lit ".") (Plus ATEXT))).
(* DOT_ATOM = CFWS + r'?' + DOT_ATOM_TEXT + CFWS + r'?' *)
Definition DOT_ATOM : regex := Seq CFWS_q (Seq DOT_ATOM_TEXT CFWS_q).
(* QTEXT = r'[' + NO_WS_CTL + r'\x21\x23-\x5b\x5d-\x7e]' *)
Definition QTEXT : regex :=
  Class (NO_WS_CTL ++ [One 33; Range 35 91; Range 93 126]).
(* QCONTENT = r'(?:' + QTEXT + r'|' + QUOTED_PAIR + r')' *)
Definition QCONTENT : regex := Alt QTEXT QUOTED_PAIR.
(* QUOTED_STRING = CFWS + r'?' + r'"(?:' + FWS + r'?' + QCONTENT + r')*' +
                   FWS + r'?' + r'"' + CFWS + r'?' *)
Definition QUOTED_STRING : regex :=
  Seq CFWS_q
    (Seq (Class [One 34])
       (Seq (Star (Seq (Opt FWS) QCONTENT))
          (Seq (Opt FWS) (Seq (Class [One 34]) CFWS_q)))).
(* LOCAL_PART = r'(?:' + DOT_ATOM + r'|' + QUOTED_STRING + r')' *)
Definition LOCAL_PART : regex := Alt DOT_ATOM QUOTED_STRING.
(* DTEXT = r'[' + NO_WS_CTL + r'\x21-\x5a\x5e-\x7e]' *)
Definition DTEXT : regex := Class (NO_WS_CTL ++ [Range 33 90; Range 94 126]).
(* DCONTENT = r'(?:' + DTEXT + r'|' + QUOTED_PAIR + r')' *)
Definition DCONTENT : regex := Alt DTEXT QUOTED_PAIR.
(* DOMAIN_LITERAL = CFWS + r'?' + r'\[' + r'(?:' + FWS + r'?' + DCONTENT +
                    r')*' + FWS + r'?\]' + CFWS + r'?' *)
Definition DOMAIN_LITERAL : regex :=
  Seq CFWS_q
    (Seq (Lit "[")
       (Seq (Star (Seq (Opt FWS) DCONTENT))
          (Seq (Opt FWS) (Seq (Lit "]") CFWS_q)))).
(* DOMAIN = r'(?:' + DOT_ATOM + r'|' + DOMAIN_LITERAL + r')' *)
Definition DOMAIN : regex := Alt DOT_ATOM DOMAIN_LITERAL.
(* ADDR_SPEC = LOCAL_PART + r'@' + DOMAIN *)
Definition ADDR_SPEC : regex := Seq LOCAL_PART (Seq (Lit "@") DOMAIN).

(* VALID_ADDRESS_REGEXP = re.compile(r'^' + ADDR_SPEC + r'$') *)
Definition VALID_ADDRESS_REGEXP : regex := Seq Bol (Seq ADDR_SPEC Eol).

(** The strings that are exactly an addr-spec of the grammar. *)
Definition addr_spec (s : string) : Prop := Lang ADDR_SPEC s.

End Pattern.

(** ** The order of Python strings and tuples *)

(** The order of the tuples [(preference, exchanger)]: the first components
    decide, the second break ties. *)
Definition mx_leb (x y : Z * string) : bool :=
  (fst x <? fst y)%Z || ((fst x =? fst y)%Z && String.leb (snd x) (snd y)).

Lemma mx_leb_total (x y : Z * string) : mx_leb x y = true \/ mx_leb y x = true.
Proof.
  destruct x as [p e], y as [q f]. unfold mx_leb. simpl.
  destruct (Z.ltb_spec p q); [now left|].
  destruct (Z.ltb_spec q p); [now right|].
  assert (p = q) by lia. subst. rewrite Z.eqb_refl. simpl.
  apply String.leb_total.
Qed.

(** The order of [str]: bytewise lexicographic. *)
Module StrOrder <: TotalLeBool.
Definition t := string.
Definition leb (x y : t) : bool := String.leb x y.
Definition leb_total : forall x y, leb x y = true \/ leb y x = true :=
  String.leb_total.
End StrOrder.

Module MxOrder <: TotalLeBool.
Definition t := (Z * string)%type.
Definition leb (x y : t) : bool := mx_leb x y.
Definition leb_total : forall x y, leb x y = true \/ leb y x = true :=
  mx_leb_total.
End MxOrder.

(** [list.sort()]: the order is total and antisymmetric, so the sorted
  arrangement is unique and any sorting function computes it. *)
Module StrSort := Sort StrOrder.
Module MxSort := Sort MxOrder.

Definition mx_le (x y : Z * string) : Prop := MxOrder.leb x y = true.
Definition str_le (x y : string) : Prop := String.leb x y = true.


(** ** The DNS collaborator ([DNS.Base]) as a mocked service *)

Module Base.

(** [result.header]: the keys the module reads. *)
Record Header : Type := { status : string; rcode : Z }.

(** One entry of [result.answers]; for an MX query [x['data']] is the tuple
    [(preference, exchanger)]. *)
Record Answer : Type := { name : string; data : Z * string }.

(** What [DnsRequest(...).req()] returns. *)
Record Response : Type := { header : Header; answers : list Answer }.

(** [ServerError(message, rcode)]. *)
Record ServerError : Type := { message : string; code : Z }.

(** [Base.defaults]: the keys the module reads. *)
Record Defaults : Type := { server : list string; server_rotate : bool }.

(** The mocked network: the name servers [DiscoverNameServers] would find
    and the reply to the [k]-th request sent since the process started. *)
Record Service : Type :=
  { nameservers : list string;
    reply : nat -> string -> string -> Response }.

(** The process-wide state of the DNS library: its defaults and the number
    of requests sent so far. *)
Record State : Type := { defaults : Defaults; requests : nat }.

Inductive result (A : Type) : Type :=
| Ok (a : A)
| Raise (e : ServerError).
Arguments Ok {A} a.
Arguments Raise {A} e.

(** Computations over the library state that may raise [ServerError]. *)
Definition M (A : Type) : Type := State -> result A * State.

Definition ret {A} (a : A) : M A := fun st => (Ok a, st).
Definition raise {A} (e : ServerError) : M A := fun st => (Raise e, st).
Definition bind {A B} (m : M A) (k : A -> M B) : M B :=
  fun st =>
    match m st with
    | (Ok a, st') => k a st'
    | (Raise e, st') => (Raise e, st')
    end.
Definition get_defaults : M Defaults := fun st => (Ok (defaults st), st).

(** [Base.DiscoverNameServers()], called when no server is configured. *)
Definition DiscoverNameServers (svc : Service) : M unit :=
  fun st =>
    (Ok tt,
     {| defaults := {| server := nameservers svc;
                       server_rotate := server_rotate (defaults st) |};
        requests := requests st |}).

(** [Base.DnsRequest(name=name, qtype=qtype, timout=5).req()]. *)
Definition req (svc : Service) (name qtype : string) : M Response :=
  fun st =>
    (Ok (reply svc (requests st) name qtype),
     {| defaults := defaults st; requests := S (requests st) |}).

End Base.

Declare Scope dns_scope.
Delimit Scope dns_scope with dns.
Notation "x <- m ;; k" := (Base.bind m (fun x => k))
(at level 61, m at next level, right associativity) : dns_scope.
Notation "m ;;; k" := (Base.bind m (fun _ => k))
(at level 61, right associativity) : dns_scope.

Module Mx.
Import Base.
Local Open Scope dns_scope.

Definition NOERROR : string := "NOERROR".

Definition is_nil {A} (l : list A) : bool :=
  match l with [] => true | _ :: _ => false end.

(** [ServerError("DNS query status: %s" % result.header['status'],
    result.header['rcode'])]. *)
Definition server_error (r : Response) : ServerError :=
  {| message := String.append "DNS query status: " (status (header r));
     code := rcode (header r) |}.

(** The inner [dnslookup(name, qtype)] of [mxlookup]. *)
Definition dnslookup (svc : Service) (name qtype : string)
  : M (list (Z * string)) :=
  d <- get_defaults ;;
  (if is_nil (server d) then DiscoverNameServers svc else ret tt) ;;;
  result <- req svc name qtype ;;
  d <- get_defaults ;;
  result <- (if negb (String.eqb (status (header result)) NOERROR)
             then raise (server_error result)
             else if Nat.eqb (List.length (answers result)) 0
                     && server_rotate d
                  then req svc name qtype   (* check with next DNS server *)
                  else ret result) ;;
  (if negb (String.eqb (status (header result)) NOERROR)
   then raise (server_error result)
   else ret tt) ;;;
  ret (map data (answers result)).

(** The inner [_mxlookup(name)]: the answers of an MX query, sorted. *)
Definition _mxlookup (svc : Service) (name : string) : M (list (Z * string)) :=
  l <- dnslookup svc name "mx" ;;
  ret (MxSort.sort l).

Definition mxlookup (svc : Service) (domain : string) : M (list (Z * string)) :=
  _mxlookup svc domain.

(** Did the request answered by [r] succeed? *)
Definition success (r : Response) : bool := String.eqb (status (header r)) NOERROR.

(** The condition under which the source sends the second request. *)
Definition retries (svc : Service) (domain : string) (st : State) : bool :=
  let r := reply svc (requests st) domain "mx" in
  success r && is_nil (answers r) && server_rotate (defaults st).

End Mx.

(** ** The class [EmailChecker] *)

Module Checker.
Import Str.

(** An error dictionary: [dict(severity=..., message=...)]. *)
Record Error : Type := { severity : Z; message : string }.

(** The instance attributes set by [__init__]. *)
Record EmailChecker : Type :=
  { email : string;
    errors : list Error;
    mx_records : option (list (Z * string));
    _gevent : bool }.

(** [EmailChecker(email, _gevent)]; the default of [_gevent],
    [settings.GEVENT_CHECKS], is the caller's to pass. *)
Definition __init__ (email : string) (_gevent : bool) : EmailChecker :=
{| email := email; errors := []; mx_records := None; _gevent := _gevent |}.

Definition set_mx_records (self : EmailChecker) (v : option (list (Z * string)))
  : EmailChecker :=
{| email := email self; errors := errors self; mx_records := v;
   _gevent := _gevent self |}.

(** [self.errors += l]: the list held by the attribute is extended in place. *)
Definition extend_errors (self : EmailChecker) (l : list Error) : EmailChecker :=
{| email := email self; errors := errors self ++ l;
   mx_records := mx_records self; _gevent := _gevent self |}.

Definition at_sign : ascii := "@"%char.
Definition full_stop : ascii := "."%char.

(** [self.email.split('@')[0]]; [split] never returns an empty list, so the
    index is always in range. *)
Definition username (self : EmailChecker) : string :=
match getitem (split at_sign (email self)) 0 with
| Some u => u
| None => EmptyString
end.

(** [self.email.split('@')[1]], and [None] on [IndexError]. *)
Definition domain (self : EmailChecker) : option string :=
getitem (split at_sign (email self)) 1.

(** [didyoumean], over the spelling collaborator [correct]. *)
Definition didyoumean (correct : string -> string) (self : EmailChecker)
  : option string :=
match domain self with
| None | Some EmptyString => None                  (* [if self.domain:] fails *)
| Some d =>
    let items := split full_stop d in
    let suggestion :=
      String.append (username self)
        (String.append "@" (join "." (map correct items))) in
    if String.eqb suggestion (email self) then None else Some suggestion
end.

(** The environment of a run: the mocked DNS service, and for each lookup
    (named by the number of its first request) whether it is still waiting
    for the network when [gevent.joinall(results, timeout=7)] gives up. *)
Record World : Type :=
  { svc : Base.Service;
    slow : nat -> bool }.

(** What calling a check does: the list it returns, the instance and the DNS
    library state it leaves, and whether it waited for the network (the only
    point where a greenlet hands control back). *)
Record Run : Type :=
  { value : list Error;
    after : EmailChecker;
    dns : Base.State;
    suspended : bool }.

Definition Check : Type := World -> EmailChecker -> Base.State -> Run.

Definition check_valid_email_string : Check :=
fun w self st =>
  if Re.matches Pattern.VALID_ADDRESS_REGEXP (email self)
  then {| value := []; after := self; dns := st; suspended := false |}
  else {| value := [ {| severity := 10; message := "Invalid email address." |} ];
          after := self; dns := st; suspended := false |}.

Definition check_valid_mx_records : Check :=
fun w self st =>
  let error := {| severity := 7;
                  message := "No MX records found for the domain." |} in
  match domain self with
  | None | Some EmptyString =>                               (* [not self.domain] *)
      {| value := [error]; after := self; dns := st; suspended := false |}
  | Some d =>
      match Mx.mxlookup (svc w) d st with
      | (Base.Ok l, st') =>
          let self' := set_mx_records self (Some l) in
          if Nat.eqb (List.length l) 0
          then {| value := [error]; after := self'; dns := st'; suspended := true |}
          else {| value := []; after := self'; dns := st'; suspended := true |}
      | (Base.Raise e, st') =>                               (* [except ServerError] *)
          {| value := [error]; after := self; dns := st'; suspended := true |}
      end
  end.

Definition check_nothing : Check :=
fun w self st => {| value := []; after := self; dns := st; suspended := false |}.

(** The attribute names of an instance: those set by [__init__], those of
    the class body in source order, and names inherited from [object], which
    all start with two underscores. *)
Definition attributes : list string :=
[ "email"; "errors"; "mx_records"; "_gevent";
  "__init__"; "username"; "domain"; "didyoumean"; "checks"; "validate";
  "check_valid_email_string"; "check_valid_mx_records"; "check_nothing";
  "__class__"; "__dict__"; "__doc__"; "__module__"; "__repr__" ].

(** [dir(self)]: the attribute names, sorted. *)
Definition dir : list string := StrSort.sort attributes.

(** [getattr(self, name)] for the names bound to checks. *)
Definition getattr (name : string) : option Check :=
if String.eqb name "check_valid_email_string" then Some check_valid_email_string
else if String.eqb name "check_valid_mx_records" then Some check_valid_mx_records
else if String.eqb name "check_nothing" then Some check_nothing
else None.

(** The names that [checks] keeps. *)
Definition check_names : list string := filter (startswith "check_") dir.

(** The property [checks]. *)
Definition checks : list Check :=
flat_map (fun name => match getattr name with Some c => [c] | None => [] end)
         check_names.

(** [[check() for check in self.checks]]. *)
Fixpoint call_all (w : World) (cs : list Check) (self : EmailChecker)
  (st : Base.State) : list (list Error) * EmailChecker * Base.State :=
match cs with
| [] => ([], self, st)
| c :: cs' =>
    let r := c w self st in
    let '(rs, self', st') := call_all w cs' (after r) (dns r) in
    (value r :: rs, self', st')
end.

(** [gevent.spawn(check)] followed to the join: the greenlet's [value] is
    [None] when the check is still waiting at the timeout; what it would do
    to the instance has then not happened when [validate] returns. *)
Definition spawn (w : World) (c : Check) (self : EmailChecker) (st : Base.State)
  : option (list Error) * EmailChecker * Base.State :=
let r := c w self st in
if suspended r && slow w (Base.requests st)
then (None, self, dns r)
else (Some (value r), after r, dns r).

(** [[gevent.spawn(check) for check in self.checks]] and
    [gevent.joinall(results, timeout=7)]. *)
Fixpoint spawn_all (w : World) (cs : list Check) (self : EmailChecker)
  (st : Base.State) : list (option (list Error)) * EmailChecker * Base.State :=
match cs with
| [] => ([], self, st)
| c :: cs' =>
    let '(v, self1, st1) := spawn w c self st in
    let '(vs, self', st') := spawn_all w cs' self1 st1 in
    (v :: vs, self', st')
end.

(** [if result.value: self.errors += result.value]. *)
Definition merge_value (self : EmailChecker) (v : option (list Error))
  : EmailChecker :=
match v with
| None | Some [] => self
| Some l => extend_errors self l
end.

(** [validate]: the first component is the content of [self.errors], the
    list object that the method returns, at the moment it returns. *)
Definition validate (w : World) (self : EmailChecker) (st : Base.State)
  : list Error * EmailChecker * Base.State :=
if _gevent self then
  let '(results, self1, st1) := spawn_all w checks self st in
  let self2 := fold_left merge_value results self1 in
  (errors self2, self2, st1)
else
  let '(results, self1, st1) := call_all w checks self st in
  let self2 := fold_left extend_errors results self1 in
  (errors self2, self2, st1).

Definition syntax_error : Error :=
{| severity := 10; message := "Invalid email address." |}.
Definition mx_error : Error :=
{| severity := 7; message := "No MX records found for the domain." |}.

End Checker.
(** ** Sessions: what a caller can do with an instance *)

Module Session.
Import Checker.

(** The uses of an instance the class offers: reading a property or calling
    a method. *)
Inductive Op : Type :=
| Get_username
| Get_domain
| Get_checks
| Call_didyoumean (correct : string -> string)
| Call_validate
| Call_check_valid_email_string
| Call_check_valid_mx_records
| Call_check_nothing.

(** The instance and the DNS library state after one use. *)
Definition step (w : World) (op : Op) (s : EmailChecker * Base.State)
  : EmailChecker * Base.State :=
  let '(self, st) := s in
  match op with
  | Get_username | Get_domain | Get_checks | Call_didyoumean _ => (self, st)
  | Call_validate =>
      let '(_, self', st') := validate w self st in (self', st')
  | Call_check_valid_email_string =>
      let r := check_valid_email_string w self st in (after r, dns r)
  | Call_check_valid_mx_records =>
      let r := check_valid_mx_records w self st in (after r, dns r)
  | Call_check_nothing =>
      let r := check_nothing w self st in (after r, dns r)
  end.

(** A sequence of uses, first to last. *)
Definition run (w : World) (ops : list Op) (s : EmailChecker * Base.State)
  : EmailChecker * Base.State :=
  fold_left (fun s op => step w op s) ops s.

End Session.

(** ** Scenarios *)

Module Scenario.
Import Checker.

Definition noerror (l : list (Z * string)) : Base.Response :=
  {| Base.header := {| Base.status := "NOERROR"; Base.rcode := 0 |};
     Base.answers := map (fun d => {| Base.name := "example.com"; Base.data := d |}) l |}.

Definition nxdomain : Base.Response :=
  {| Base.header := {| Base.status := "NXDOMAIN"; Base.rcode := 3 |};
     Base.answers := [] |}.

(** A service that answers every request with one MX record. *)
Definition one_record : Base.Service :=
  {| Base.nameservers := ["192.0.2.53"];
     Base.reply := fun _ _ _ => noerror [(10%Z, "mx1.example.com")] |}.

(** A service that fails every request. *)
Definition failing : Base.Service :=
  {| Base.nameservers := ["192.0.2.53"];
     Base.reply := fun _ _ _ => nxdomain |}.

(** A service whose first reply is empty and whose second holds two records
    out of order. *)
Definition second_try : Base.Service :=
  {| Base.nameservers := ["192.0.2.53"];
     Base.reply := fun k _ _ =>
       match k with
       | O => noerror []
       | _ => noerror [(20%Z, "mx2.example.com"); (10%Z, "mx1.example.com")]
       end |}.

Definition world (svc : Base.Service) : World :=
  {| svc := svc; slow := fun _ => false |}.

(** The DNS library before its first use. *)
Definition fresh : Base.State :=
  {| Base.defaults := {| Base.server := []; Base.server_rotate := true |};
     Base.requests := 0 |}.

(** The collaborator of the suggestion scenario: it corrects [gnail] to
    [gmail]. *)
Definition correct_gnail (label : string) : string :=
  if String.eqb label "gnail" then "gmail" else label.

(** The instance for [not-an-email] after one sequential [validate]. *)
Definition validated_once : EmailChecker :=
  snd (fst (validate (world one_record) (__init__ "not-an-email" false) fresh)).

End Scenario.

(** ** Notions used to state the properties *)

Module Notions.
Import Str Base Mx Checker.

(** The state [dnslookup] leaves its defaults in: servers are discovered
    when none is configured. *)
Definition configured (svc : Service) (st : State) : Defaults :=
  if is_nil (server (defaults st))
  then {| server := nameservers svc;
          server_rotate := server_rotate (defaults st) |}
  else defaults st.

(** Is the MX check of this run abandoned at the join? *)
Definition abandoned (w : World) (self : EmailChecker) (st : Base.State) : bool :=
  _gevent self && (suspended (check_valid_mx_records w self st)
                   && slow w (Base.requests st)).

(** The errors one run of [validate] adds. *)
Definition found (w : World) (self : EmailChecker) (st : Base.State) : list Error :=
  value (check_valid_email_string w self st) ++
  (if abandoned w self st then [] else value (check_valid_mx_records w self st)).

(** What a greenlet contributes: its value, or nothing when it has none. *)
Definition contribution (v : option (list Error)) : list Error :=
  match v with Some l => l | None => [] end.

(** The MX check as the specification words it: an absent domain gives the
    one error; any other domain is looked up, so that a request is sent, and
    the outcome of the lookup decides. *)
Definition mx_check_as_stated (w : World) (self : EmailChecker) (st : Base.State)
  : Prop :=
  let r := check_valid_mx_records w self st in
  match domain self with
  | None => value r = [mx_error]
  | Some d =>
      Base.requests st < Base.requests (dns r) /\
      match fst (Mx.mxlookup (svc w) d st) with
      | Base.Ok (x :: l) => value r = [] /\ mx_records (after r) = Some (x :: l)
      | _ => value r = [mx_error]
      end
  end.

(** Can [mxlookup] return for the domain of this address? *)
Definition resolvable (w : World) (address : string) : Prop :=
  exists d l st, getitem (split at_sign address) 1 = Some d /\ d <> EmptyString /\
                 fst (Mx.mxlookup (svc w) d st) = Base.Ok l.

(** A mocked world with fixed outcomes: the service answers a request the
    same way whenever it is sent, and a lookup is slow or not regardless of
    when it starts. *)
Definition stationary (w : World) : Prop :=
  (forall k name qtype,
     Base.reply (svc w) k name qtype = Base.reply (svc w) 0 name qtype) /\
  (forall k, slow w k = slow w 0).

End Notions.

(** * Facts *)

(** ** Facts about strings *)

Section StringFacts.

Lemma append_nil_r (s : string) : String.append s EmptyString = s.
Proof. induction s as [|c s IH]; simpl; [reflexivity | now rewrite IH]. Qed.

Lemma append_assoc (a b c : string) :
  String.append (String.append a b) c = String.append a (String.append b c).
Proof. induction a as [|x a IH]; simpl; [reflexivity | now rewrite IH]. Qed.

Lemma length_append (a b : string) :
  String.length (String.append a b) = String.length a + String.length b.
Proof. induction a as [|x a IH]; simpl; [reflexivity | now rewrite IH]. Qed.

End StringFacts.

(** ** The matcher computes the language *)

Module ReFacts.
Import Re.

Lemma star_from_head step k s : In s (star_from step k s).
Proof. destruct k; simpl; now left. Qed.

(** Past [String.length s], more fuel changes nothing. *)
Lemma star_from_fuel step k : forall k' s,
  String.length s <= k -> String.length s <= k' ->
  star_from step k s = star_from step k' s.
Proof.
  induction k as [|k IH]; intros k' s Hk Hk'.
  - destruct s; simpl in Hk; [|lia]. destruct k'; simpl; [reflexivity|].
    f_equal. induction (step EmptyString) as [|x l IHl]; simpl; [reflexivity|].
    now rewrite <- IHl.
  - destruct k' as [|k'].
    + destruct s; simpl in Hk'; [|lia]. simpl. f_equal.
      induction (step EmptyString) as [|x l IHl]; simpl; [reflexivity|].
      now rewrite IHl.
    + simpl. f_equal. induction (step s) as [|x l IHl]; simpl; [reflexivity|].
      rewrite IHl. f_equal.
      destruct (Nat.ltb (String.length x) (String.length s)) eqn:E;
        [|reflexivity].
      apply Nat.ltb_lt in E. apply IH; lia.
Qed.

Lemma star_from_step step k s s' rest :
  In s' (step s) -> String.length s' < String.length s ->
  String.length s <= k ->
  In rest (star_from step (String.length s') s') ->
  In rest (star_from step k s).
Proof.
  intros Hs' Hlt Hk Hin. destruct k as [|k]; [lia|].
  simpl. right. apply in_flat_map. exists s'. split; [exact Hs'|].
  apply Nat.ltb_lt in Hlt as Hb. rewrite Hb.
  rewrite (star_from_fuel step (k':=String.length s')); [exact Hin | lia | lia].
Qed.

Lemma star_from_sound (a : regex) (step : string -> list string) :
  (forall s rest, In rest (step s) ->
                  exists pre, s = String.append pre rest /\ Lang a pre) ->
  forall k s rest, In rest (star_from step k s) ->
                   exists pre, s = String.append pre rest /\ Lang (Star a) pre.
Proof.
  intros Hstep. induction k as [|k IH]; intros s rest Hin; simpl in Hin.
  - destruct Hin as [<- | []]. exists EmptyString. split; [reflexivity | constructor].
  - destruct Hin as [<- | Hin].
    + exists EmptyString. split; [reflexivity | constructor].
    + apply in_flat_map in Hin. destruct Hin as [s' [Hs' Hin]].
      destruct (Nat.ltb (String.length s') (String.length s)); [|contradiction].
      destruct (Hstep _ _ Hs') as [u [-> Hu]].
      destruct (IH _ _ Hin) as [v [-> Hv]].
      exists (String.append u v). split.
      * now rewrite append_assoc.
      * now constructor.
Qed.

(** Soundness: whatever the matcher leaves, it has consumed a word of the
    language. *)
Lemma residuals_sound n (r : regex) :
  anchor_free r = true ->
  forall s rest, In rest (residuals n r s) ->
                 exists pre, s = String.append pre rest /\ Lang r pre.
Proof.
  induction r as [|items| |a IHa b IHb|a IHa b IHb|a IHa| |];
    simpl; intros Haf s rest Hin; try discriminate.
  - destruct Hin as [<- | []]. exists EmptyString. split; [reflexivity | constructor].
  - destruct s as [|c t]; [contradiction|].
    destruct (in_class items c) eqn:E; [|contradiction].
    destruct Hin as [<- | []]. exists (String c EmptyString).
    split; [reflexivity | now constructor].
  - destruct s as [|c t]; [contradiction|].
    destruct (Ascii.eqb_spec c newline) as [|Hne]; [contradiction|].
    destruct Hin as [<- | []]. exists (String c EmptyString).
    split; [reflexivity | now constructor].
  - apply andb_prop in Haf. destruct Haf as [Ha Hb].
    apply in_flat_map in Hin. destruct Hin as [m [Hm Hin]].
    destruct (IHa Ha _ _ Hm) as [u [-> Hu]].
    destruct (IHb Hb _ _ Hin) as [v [-> Hv]].
    exists (String.append u v). split; [now rewrite append_assoc | now constructor].
  - apply andb_prop in Haf. destruct Haf as [Ha Hb].
    apply in_app_or in Hin. destruct Hin as [Hin | Hin].
    + destruct (IHa Ha _ _ Hin) as [u [-> Hu]]. exists u. split; [reflexivity|].
      now apply L_AltL.
    + destruct (IHb Hb _ _ Hin) as [u [-> Hu]]. exists u. split; [reflexivity|].
      now apply L_AltR.
  - eapply star_from_sound; [|exact Hin]. exact (IHa Haf).
Qed.

(** Completeness: every word of the language at the front of the subject
    is found. *)
Lemma residuals_complete n (r : regex) (pre : string) :
  Lang r pre -> forall rest, In rest (residuals n r (String.append pre rest)).
Proof.
  induction 1 as [|items c Hc|c Hc|a b u v Hu IHu Hv IHv|a b u Hu IHu
                 |a b u Hu IHu|a|a u v Hu IHu Hv IHv]; intros rest;
    cbn [residuals].
  - now left.
  - simpl. rewrite Hc. now left.
  - simpl. destruct (Ascii.eqb_spec c newline) as [|Hne]; [contradiction | now left].
  - rewrite append_assoc. apply in_flat_map. exists (String.append v rest).
    split; [apply IHu | apply IHv].
  - apply in_or_app. left. apply IHu.
  - apply in_or_app. right. apply IHu.
  - apply star_from_head.
  - destruct u as [|c u]; [exact (IHv rest)|].
    rewrite append_assoc.
    apply star_from_step with (s' := String.append v rest).
    + apply IHu.
    + simpl. rewrite (length_append u). lia.
    + apply le_n.
    + apply IHv.
Qed.

(** A whole-string match is decided by looking for the empty residual. *)
Lemma Lang_iff_residual n (r : regex) (s : string) :
  anchor_free r = true ->
  (Lang r s <-> In EmptyString (residuals n r s)).
Proof.
  intros Haf. split.
  - intros H. pose proof (residuals_complete n H EmptyString) as Hc.
    now rewrite append_nil_r in Hc.
  - intros H. destruct (residuals_sound n r Haf _ _ H) as [pre [-> Hp]].
    now rewrite append_nil_r.
Qed.

End ReFacts.

(** ** The order of Python strings and tuples *)

Section StringOrder.

Lemma ascii_compare_N (a b : ascii) :
  Ascii.compare a b = N.compare (N_of_ascii a) (N_of_ascii b).
Proof. reflexivity. Qed.

Lemma string_compare_eq (s1 s2 : string) :
  String.compare s1 s2 = Eq -> s1 = s2.
Proof. apply String.compare_eq_iff. Qed.

(** [String.compare] is a lexicographic order on the bytes: strict
    comparisons compose. *)
Lemma string_compare_lt_trans : forall s1 s2 s3,
  String.compare s1 s2 = Lt -> String.compare s2 s3 = Lt ->
  String.compare s1 s3 = Lt.
Proof.
  induction s1 as [|a s1 IH]; intros [|b s2] [|c s3]; simpl;
    try discriminate; try reflexivity.
  rewrite !ascii_compare_N.
  destruct (N.compare_spec (N_of_ascii a) (N_of_ascii b)) as [Eab|Lab|Gab];
    destruct (N.compare_spec (N_of_ascii b) (N_of_ascii c)) as [Ebc|Lbc|Gbc];
    try discriminate; intros H1 H2.
  - rewrite Eab, Ebc, N.compare_refl. eapply IH; eassumption.
  - rewrite Eab. now apply N.compare_lt_iff in Lbc as ->.
  - rewrite <- Ebc. now apply N.compare_lt_iff in Lab as ->.
  - assert (L : (N_of_ascii a < N_of_ascii c)%N) by lia.
    now apply N.compare_lt_iff in L as ->.
Qed.

Lemma string_leb_trans (s1 s2 s3 : string) :
  String.leb s1 s2 = true -> String.leb s2 s3 = true -> String.leb s1 s3 = true.
Proof.
  unfold String.leb.
  destruct (String.compare s1 s2) eqn:E12; try discriminate;
    destruct (String.compare s2 s3) eqn:E23; try discriminate; intros _ _.
  - apply string_compare_eq in E12. subst. now rewrite E23.
  - apply string_compare_eq in E12. subst. now rewrite E23.
  - apply string_compare_eq in E23. subst. now rewrite E12.
  - now rewrite (string_compare_lt_trans _ _ _ E12 E23).
Qed.

End StringOrder.

Section OrderFacts.

Lemma mx_le_lex (x y : Z * string) :
  mx_le x y <->
  (fst x < fst y)%Z \/ (fst x = fst y /\ String.leb (snd x) (snd y) = true).
Proof.
  unfold mx_le, MxOrder.leb, mx_leb. rewrite orb_true_iff, andb_true_iff.
  rewrite Z.ltb_lt, Z.eqb_eq. reflexivity.
Qed.

Lemma mx_le_trans (x y z : Z * string) : mx_le x y -> mx_le y z -> mx_le x z.
Proof.
  rewrite !mx_le_lex. intros [H1 | [H1 H1']] [H2 | [H2 H2']].
  - left. lia.
  - left. lia.
  - left. lia.
  - right. split; [lia|]. eapply string_leb_trans; eassumption.
Qed.

Lemma mx_sort_sorted (l : list (Z * string)) : StronglySorted mx_le (MxSort.sort l).
Proof.
  apply MxSort.StronglySorted_sort. intros x y z. apply mx_le_trans.
Qed.

Lemma str_sort_sorted (l : list string) : StronglySorted str_le (StrSort.sort l).
Proof.
  apply StrSort.StronglySorted_sort. intros x y z. apply string_leb_trans.
Qed.

End OrderFacts.

(** ** [split] and [join] *)

Module StrFacts.
Import Str.

Lemma split_nonempty (c : ascii) (s : string) : split c s <> [].
Proof.
  destruct s as [|a t]; simpl; [discriminate|].
  destruct (Ascii.eqb a c); [discriminate|].
  destruct (split c t); discriminate.
Qed.

(** The first piece of a split is what precedes the first separator. *)
Lemma split_first (c : ascii) (s : string) :
  getitem (split c s) 0 = Some (before_first c s).
Proof.
  induction s as [|a t IH]; simpl; [reflexivity|].
  destruct (Ascii.eqb a c); [reflexivity|].
  destruct (split c t) as [|h r]; simpl in *; [discriminate|].
  now injection IH as ->.
Qed.

(** The other pieces are the split of what follows the first separator. *)
Lemma split_rest (c : ascii) (s : string) :
  tl (split c s) =
  match after_first c s with
  | None => []
  | Some r => split c r
  end.
Proof.
  induction s as [|a t IH]; simpl; [reflexivity|].
  destruct (Ascii.eqb a c); [reflexivity|].
  destruct (split c t) as [|h r] eqn:E; simpl in *; [|exact IH].
  now apply split_nonempty in E.
Qed.

Lemma split_second (c : ascii) (s : string) :
  getitem (split c s) 1 = option_map (before_first c) (after_first c s).
Proof.
  pose proof (split_rest c s) as H.
  destruct (split c s) as [|h r] eqn:E; [now apply split_nonempty in E|].
  simpl in H. unfold getitem. simpl. subst r.
  destruct (after_first c s) as [r|]; simpl; [|reflexivity].
  apply split_first.
Qed.

Lemma after_first_none (c : ascii) (s : string) :
  after_first c s = None <-> contains c s = false.
Proof.
  induction s as [|a t IH]; simpl; [tauto|].
  destruct (Ascii.eqb a c); simpl; [|exact IH].
  split; discriminate.
Qed.

Lemma before_first_absent (c : ascii) (s : string) :
  contains c s = false -> before_first c s = s.
Proof.
  induction s as [|a t IH]; simpl; [reflexivity|].
  destruct (Ascii.eqb a c); simpl; [discriminate|].
  intros H. now rewrite IH.
Qed.

(** A string is what precedes its first separator, the separator, and what
    follows it. *)
Lemma first_cut (c : ascii) (s r : string) :
  after_first c s = Some r ->
  s = String.append (before_first c s) (String c r).
Proof.
  induction s as [|a t IH]; simpl; [discriminate|].
  destruct (Ascii.eqb_spec a c) as [->|Hne]; simpl.
  - now intros [= ->].
  - intros H. now rewrite <- (IH H).
Qed.

(** Joining the pieces of a split with the separator gives the string back. *)
Lemma join_split (c : ascii) (s : string) :
  join (String c EmptyString) (split c s) = s.
Proof.
  induction s as [|a t IH]; simpl; [reflexivity|].
  destruct (Ascii.eqb_spec a c) as [->|Hne].
  - destruct (split c t) as [|h r] eqn:E; [now apply split_nonempty in E|].
    simpl in *. now rewrite IH.
  - destruct (split c t) as [|h r] eqn:E; [now apply split_nonempty in E|].
    simpl in *. destruct r as [|h' r']; simpl in *; now rewrite <- IH.
Qed.

Lemma map_id_ext {A} (f : A -> A) (l : list A) :
  (forall x, f x = x) -> map f l = l.
Proof.
  intros H. induction l as [|x l IH]; simpl; [reflexivity|].
  now rewrite H, IH.
Qed.

End StrFacts.

(** ** The derived attributes and the suggestion *)

Module PartsFacts.
Import Str StrFacts Checker.

Lemma username_before_first (self : EmailChecker) :
  username self = before_first at_sign (email self).
Proof. unfold username. now rewrite split_first. Qed.

Lemma domain_second_piece (self : EmailChecker) :
  domain self = option_map (before_first at_sign) (after_first at_sign (email self)).
Proof. unfold domain. apply split_second. Qed.

Lemma domain_none_iff (self : EmailChecker) :
  domain self = None <-> contains at_sign (email self) = false.
Proof.
  rewrite domain_second_piece, <- after_first_none.
  destruct (after_first at_sign (email self)); simpl; split; congruence.
Qed.

(** With a single [@] the address is its user name, the [@] and its domain. *)
Lemma single_at_parts (self : EmailChecker) (r : string) :
  after_first at_sign (email self) = Some r -> contains at_sign r = false ->
  domain self = Some r /\
  email self = String.append (username self) (String.append "@" r).
Proof.
  intros Hr Hno. rewrite domain_second_piece, username_before_first, Hr. simpl.
  rewrite (before_first_absent _ _ Hno). split; [reflexivity|].
  exact (first_cut _ _ Hr).
Qed.

(** X10: when the collaborator changes no label and the address has a single
    [@], nothing is suggested. *)
Lemma didyoumean_nothing_to_correct (correct : string -> string)
  (self : EmailChecker) (r : string) :
  (forall label, correct label = label) ->
  after_first at_sign (email self) = Some r -> contains at_sign r = false ->
  didyoumean correct self = None.
Proof.
  intros Hid Hr Hno. destruct (single_at_parts self Hr Hno) as [Hd He].
  unfold didyoumean. rewrite Hd. destruct r as [|c t]; [reflexivity|].
  cbv zeta. rewrite (map_id_ext _ _ Hid).
  change "."%string with (String full_stop EmptyString).
  rewrite join_split, <- He. now rewrite String.eqb_refl.
Qed.

(** C6, as the code has it: the user name is what precedes the first [@];
    the domain is [None] exactly when the address holds no [@]; otherwise the
    domain is the piece between the first [@] and the next one (all that
    follows the first [@] when there is no other). *)
Theorem username_domain_pieces (self : EmailChecker) :
  username self = before_first at_sign (email self) /\
  (domain self = None <-> contains at_sign (email self) = false) /\
  domain self = option_map (before_first at_sign) (after_first at_sign (email self)).
Proof.
  split; [apply username_before_first|].
  split; [apply domain_none_iff | apply domain_second_piece].
Qed.

(** C6 as stated fails when the address holds a second [@]: the domain of
    [a@b@c] is [b], not [b@c], the substring after the first [@]. *)
Lemma domain_second_at_counterexample :
  domain (__init__ "a@b@c" false) = Some "b" /\
  after_first at_sign "a@b@c" = Some "b@c" /\
  domain (__init__ "a@b@c" false) <> after_first at_sign "a@b@c".
Proof.
  split; [reflexivity|]. split; [reflexivity|].
  unfold domain, getitem. simpl. intros H. discriminate H.
Qed.

(** C9: with a non-empty domain, [didyoumean] builds the suggestion from the
    original local part, an [@] and the corrected labels joined by dots; it
    returns the suggestion when it differs from the address and [None] when
    it equals it; it returns [None] when the domain is absent or empty. *)
Theorem didyoumean_suggestion (correct : string -> string) (self : EmailChecker) :
  let suggestion d :=
    String.append (before_first at_sign (email self))
      (String.append "@" (join "." (map correct (split full_stop d)))) in
  (forall d, domain self = Some d -> d <> EmptyString ->
             suggestion d <> email self ->
             didyoumean correct self = Some (suggestion d)) /\
  (forall d, domain self = Some d -> d <> EmptyString ->
             suggestion d = email self ->
             didyoumean correct self = None) /\
  (domain self = None \/ domain self = Some EmptyString ->
   didyoumean correct self = None).
Proof.
  cbv zeta. rewrite <- username_before_first. unfold didyoumean.
  split; [|split].
  - intros d Hd Hne Hs. rewrite Hd. destruct d as [|c t]; [congruence|].
    apply String.eqb_neq in Hs. now rewrite Hs.
  - intros d Hd Hne Hs. rewrite Hd. destruct d as [|c t]; [congruence|].
    apply String.eqb_eq in Hs. now rewrite Hs.
  - intros [H | H]; now rewrite H.
Qed.

(** The scenario of the suggestion: [bob@gnail.com] becomes [bob@gmail.com]. *)
Lemma didyoumean_suggestion_witness :
  didyoumean Scenario.correct_gnail (__init__ "bob@gnail.com" false)
  = Some "bob@gmail.com".
Proof.
  apply (proj1 (didyoumean_suggestion Scenario.correct_gnail
                  (__init__ "bob@gnail.com" false)) "gnail.com").
  - reflexivity.
  - discriminate.
  - vm_compute. discriminate.
Defined.

End PartsFacts.

(** ** The lookup *)

Module MxFacts.
Import Base Mx Notions.

(** [dnslookup], case by case. *)
Lemma dnslookup_cases (svc : Service) (name qtype : string) (st : State) :
  let r0 := reply svc (requests st) name qtype in
  let r1 := reply svc (S (requests st)) name qtype in
  let sent k := {| defaults := configured svc st; requests := k + requests st |} in
  dnslookup svc name qtype st =
  if negb (success r0) then (Raise (server_error r0), sent 1)
  else if is_nil (answers r0) && server_rotate (defaults st)
       then if negb (success r1) then (Raise (server_error r1), sent 2)
            else (Ok (map data (answers r1)), sent 2)
       else (Ok (map data (answers r0)), sent 1).
Proof.
  intros r0 r1 sent. subst r0 r1 sent.
  unfold dnslookup, bind, get_defaults, DiscoverNameServers, req, raise, ret,
    configured, success.
  destruct st as [[srv rot] k]. simpl.
  destruct srv as [|s srv]; simpl;
    destruct (String.eqb (status (header (reply svc k name qtype))) NOERROR) eqn:E0;
    simpl; try reflexivity;
    destruct (answers (reply svc k name qtype)) as [|a l] eqn:A0; simpl;
    try (rewrite E0; reflexivity);
    destruct rot; simpl; try (rewrite E0; simpl; rewrite ?A0; reflexivity);
    destruct (String.eqb (status (header (reply svc (S k) name qtype))) NOERROR);
    reflexivity.
Qed.

(** [mxlookup] sorts what [dnslookup] returns and leaves the state alone. *)
Lemma mxlookup_dnslookup (svc : Service) (domain : string) (st : State) :
  mxlookup svc domain st =
  match dnslookup svc domain "mx" st with
  | (Ok l, st') => (Ok (MxSort.sort l), st')
  | (Raise e, st') => (Raise e, st')
  end.
Proof.
  unfold mxlookup, _mxlookup, bind, ret.
  destruct (dnslookup svc domain "mx" st) as [[l|e] st']; reflexivity.
Qed.

(** C4: [mxlookup] raises [ServerError] exactly when one of the requests it
    sent reports a status other than NOERROR; it sends a second request
    exactly when the first succeeds with no answer and server rotation is
    on, and never a third; when it returns, the list is the answer payloads
    of the last request sent, sorted ascending by (preference, exchanger). *)
Theorem mxlookup_contract (svc : Service) (domain : string) (st : State) :
  let res := fst (mxlookup svc domain st) in
  let st' := snd (mxlookup svc domain st) in
  let asked k := reply svc k domain "mx" in
  let last := if retries svc domain st then asked (S (requests st))
              else asked (requests st) in
  requests st' = (if retries svc domain st then 2 else 1) + requests st /\
  ((exists e, res = Raise e) <->
   (exists k, requests st <= k < requests st' /\ success (asked k) = false)) /\
  (forall l, res = Ok l ->
             StronglySorted mx_le l /\ Permutation (map data (answers last)) l).
Proof.
  cbv zeta. rewrite mxlookup_dnslookup, dnslookup_cases. unfold retries.
  cbv zeta.
  set (r0 := reply svc (requests st) domain "mx").
  set (r1 := reply svc (S (requests st)) domain "mx").
  destruct (success r0) eqn:S0; simpl.
  - destruct (is_nil (answers r0) && server_rotate (defaults st)) eqn:R; simpl.
    + destruct (success r1) eqn:S1; simpl.
      * split; [reflexivity|]. split.
        -- split; [intros [e He]; discriminate|].
           intros [k [Hk Hf]].
           assert (k = requests st \/ k = S (requests st)) as [-> | ->] by lia.
           ++ fold r0 in Hf. congruence.
           ++ fold r1 in Hf. congruence.
        -- intros l [= <-]. split; [apply mx_sort_sorted | apply MxSort.Permuted_sort].
      * split; [reflexivity|]. split.
        -- split; [|intros _; eexists; reflexivity].
           intros _. exists (S (requests st)). split; [lia | exact S1].
        -- intros l H. discriminate.
    + split; [reflexivity|]. split.
      * split; [intros [e He]; discriminate|].
        intros [k [Hk Hf]]. assert (k = requests st) as -> by lia.
        fold r0 in Hf. congruence.
      * intros l [= <-]. split; [apply mx_sort_sorted | apply MxSort.Permuted_sort].
  - split; [reflexivity|]. split.
    + split; [|intros _; eexists; reflexivity].
      intros _. exists (requests st). split; [lia | exact S0].
    + intros l H. discriminate.
Qed.

End MxFacts.

(** ** The address pattern against the grammar *)

Module PatternFacts.
Import Re ReFacts Pattern.

Lemma nonempty_iff {A} (l : list A) :
  match l with [] => false | _ :: _ => true end = true <-> exists x, In x l.
Proof.
  destruct l as [|x l]; simpl.
  - split; [discriminate | intros [x []]].
  - split; [intros _; exists x; now left | reflexivity].
Qed.

Lemma Eol_residuals n (s x : string) :
  In x (residuals n Eol s) <->
  x = s /\ (s = EmptyString \/ s = String newline EmptyString).
Proof.
  simpl. destruct s as [|c [|d t]]; simpl.
  - split; [intros [<- | []]; auto | intros [-> _]; now left].
  - destruct (Ascii.eqb_spec c newline) as [->|Hne]; simpl.
    + split; [intros [<- | []]; auto | intros [-> _]; now left].
    + split; [intros [] | intros [_ [H | H]]; [discriminate | congruence]].
  - split; [intros [] | intros [_ [H | H]]; discriminate].
Qed.

(** What [re.match(VALID_ADDRESS_REGEXP, s)] accepts: an addr-spec, or an
    addr-spec followed by one newline. *)
Lemma VALID_ADDRESS_REGEXP_accepts (s : string) :
  matches VALID_ADDRESS_REGEXP s = true <->
  addr_spec s \/
  exists s', s = String.append s' (String newline EmptyString) /\ addr_spec s'.
Proof.
  unfold matches, addr_spec. rewrite nonempty_iff.
  unfold VALID_ADDRESS_REGEXP. cbn [residuals]. rewrite Nat.eqb_refl.
  cbn [flat_map]. rewrite app_nil_r.
  assert (Haf : anchor_free ADDR_SPEC = true) by reflexivity.
  split.
  - intros [x Hx]. apply in_flat_map in Hx. destruct Hx as [rest [Hrest Hx]].
    apply (Eol_residuals 0) in Hx. destruct Hx as [-> Hend].
    destruct (residuals_sound _ _ Haf _ _ Hrest) as [pre [-> Hpre]].
    destruct Hend as [-> | ->].
    + left. now rewrite append_nil_r.
    + right. exists pre. split; [reflexivity | exact Hpre].
  - intros [H | [s' [-> H]]].
    + exists EmptyString. apply in_flat_map. exists EmptyString. split.
      * pose proof (residuals_complete (String.length s) H EmptyString) as Hc.
        now rewrite append_nil_r in Hc.
      * now left.
    + eexists. apply in_flat_map. exists (String newline EmptyString). split.
      * apply (residuals_complete _ H).
      * now left.
Qed.

(** Membership in the grammar is decided by running the matcher. *)
Lemma addr_spec_decide (s : string) :
  addr_spec s <->
  existsb (String.eqb EmptyString) (residuals (String.length s) ADDR_SPEC s) = true.
Proof.
  unfold addr_spec. rewrite (Lang_iff_residual (String.length s)) by reflexivity.
  rewrite existsb_exists. split.
  - intros H. exists EmptyString. split; [exact H | reflexivity].
  - intros [x [Hx E]]. apply String.eqb_eq in E. now subst x.
Qed.

(** C2: the pattern accepts [a@b.c], and also [a@b.c] followed by a newline,
    which is not an addr-spec of the grammar: [$] holds before a final
    newline, so one character appended to a valid address leaves it
    accepted although the result is not grammar-valid. *)
Theorem trailing_newline_accepted :
  matches VALID_ADDRESS_REGEXP "a@b.c" = true /\
  matches VALID_ADDRESS_REGEXP (String.append "a@b.c" (String newline EmptyString)) = true /\
  ~ addr_spec (String.append "a@b.c" (String newline EmptyString)).
Proof.
  split; [vm_compute; reflexivity|]. split; [vm_compute; reflexivity|].
  rewrite addr_spec_decide. vm_compute. discriminate.
Qed.

End PatternFacts.

(** ** The checks and [validate] *)

Module CheckerFacts.
Import Str StrFacts Checker PartsFacts Notions.

Lemma check_names_found :
  check_names = ["check_nothing"; "check_valid_email_string"; "check_valid_mx_records"].
Proof. reflexivity. Qed.

Lemma checks_found :
  checks = [check_nothing; check_valid_email_string; check_valid_mx_records].
Proof. reflexivity. Qed.

Lemma syntax_value (w : World) (self : EmailChecker) (st : Base.State) :
  value (check_valid_email_string w self st) =
  if Re.matches Pattern.VALID_ADDRESS_REGEXP (email self) then [] else [syntax_error].
Proof.
  unfold check_valid_email_string.
  now destruct (Re.matches Pattern.VALID_ADDRESS_REGEXP (email self)).
Qed.

Lemma syntax_inert (w : World) (self : EmailChecker) (st : Base.State) :
  after (check_valid_email_string w self st) = self /\
  dns (check_valid_email_string w self st) = st.
Proof.
  unfold check_valid_email_string.
  now destruct (Re.matches Pattern.VALID_ADDRESS_REGEXP (email self)).
Qed.

Lemma mx_value (w : World) (self : EmailChecker) (st : Base.State) :
  value (check_valid_mx_records w self st) = [] \/
  value (check_valid_mx_records w self st) = [mx_error].
Proof.
  unfold check_valid_mx_records.
  destruct (domain self) as [[|c d]|]; simpl; auto.
  destruct (Mx.mxlookup (svc w) (String c d) st) as [[l|e] st']; simpl; auto.
  destruct l; simpl; auto.
Qed.

(** The MX check touches nothing but [mx_records]. *)
Lemma mx_after (w : World) (self : EmailChecker) (st : Base.State) :
  email (after (check_valid_mx_records w self st)) = email self /\
  errors (after (check_valid_mx_records w self st)) = errors self /\
  _gevent (after (check_valid_mx_records w self st)) = _gevent self.
Proof.
  unfold check_valid_mx_records.
  destruct (domain self) as [[|c d]|]; simpl; auto.
  destruct (Mx.mxlookup (svc w) (String c d) st) as [[l|e] st']; simpl; auto.
  destruct l; simpl; auto.
Qed.

Lemma fold_extend_errors (rs : list (list Error)) : forall self,
  errors (fold_left extend_errors rs self) = errors self ++ List.concat rs /\
  email (fold_left extend_errors rs self) = email self /\
  mx_records (fold_left extend_errors rs self) = mx_records self /\
  _gevent (fold_left extend_errors rs self) = _gevent self.
Proof.
  induction rs as [|r rs IH]; intros self; simpl.
  - now rewrite app_nil_r.
  - destruct (IH (extend_errors self r)) as [He [Hm [Hx Hg]]].
    rewrite He, Hm, Hx, Hg. simpl. now rewrite app_assoc.
Qed.

Lemma merge_value_fields (self : EmailChecker) (v : option (list Error)) :
  errors (merge_value self v) = errors self ++ contribution v /\
  email (merge_value self v) = email self /\
  mx_records (merge_value self v) = mx_records self /\
  _gevent (merge_value self v) = _gevent self.
Proof.
  destruct v as [[|e l]|]; simpl; rewrite ?app_nil_r; auto.
Qed.

Lemma fold_merge_value (vs : list (option (list Error))) : forall self,
  errors (fold_left merge_value vs self)
  = errors self ++ List.concat (map contribution vs) /\
  email (fold_left merge_value vs self) = email self /\
  mx_records (fold_left merge_value vs self) = mx_records self /\
  _gevent (fold_left merge_value vs self) = _gevent self.
Proof.
  induction vs as [|v vs IH]; intros self; simpl.
  - now rewrite app_nil_r.
  - destruct (IH (merge_value self v)) as [He [Hm [Hx Hg]]].
    destruct (merge_value_fields self v) as [He' [Hm' [Hx' Hg']]].
    rewrite He, Hm, Hx, Hg, He', Hm', Hx', Hg'. now rewrite app_assoc.
Qed.

Lemma spawn_nothing (w : World) (self : EmailChecker) (st : Base.State) :
  spawn w check_nothing self st = (Some [], self, st).
Proof. reflexivity. Qed.

Lemma spawn_syntax (w : World) (self : EmailChecker) (st : Base.State) :
  spawn w check_valid_email_string self st
  = (Some (value (check_valid_email_string w self st)), self, st).
Proof.
  unfold spawn, check_valid_email_string.
  now destruct (Re.matches Pattern.VALID_ADDRESS_REGEXP (email self)).
Qed.

(** The three calls of the sequential mode. *)
Lemma call_all_checks (w : World) (self : EmailChecker) (st : Base.State) :
  let r := check_valid_mx_records w self st in
  call_all w checks self st
  = ([value (check_nothing w self st);
      value (check_valid_email_string w self st);
      value r], after r, dns r).
Proof.
  cbv zeta. rewrite checks_found. cbn [call_all].
  destruct (syntax_inert w self st) as [Ha Hd].
  cbn [check_nothing after dns value]. now rewrite Ha, Hd.
Qed.

(** The three greenlets of the gevent mode. *)
Lemma spawn_all_checks (w : World) (self : EmailChecker) (st : Base.State) :
  let r := check_valid_mx_records w self st in
  spawn_all w checks self st
  = if suspended r && slow w (Base.requests st)
    then ([Some []; Some (value (check_valid_email_string w self st)); None],
          self, dns r)
    else ([Some []; Some (value (check_valid_email_string w self st));
           Some (value r)], after r, dns r).
Proof.
  cbv zeta. rewrite checks_found. cbn [spawn_all].
  rewrite spawn_nothing, spawn_syntax. unfold spawn.
  now destruct (suspended (check_valid_mx_records w self st)
                && slow w (Base.requests st)).
Qed.

(** One run of [validate]: it returns the errors held before followed by
    the errors found, and leaves the instance and the DNS library as the MX
    check does, unless that check is abandoned. *)
Lemma validate_result (w : World) (self : EmailChecker) (st : Base.State) :
  let r := check_valid_mx_records w self st in
  let out := validate w self st in
  fst (fst out) = errors self ++ found w self st /\
  errors (snd (fst out)) = errors self ++ found w self st /\
  email (snd (fst out)) = email self /\
  _gevent (snd (fst out)) = _gevent self /\
  mx_records (snd (fst out)) =
    (if abandoned w self st then mx_records self else mx_records (after r)) /\
  snd out = dns r.
Proof.
  cbv zeta. unfold validate, found, abandoned.
  destruct (mx_after w self st) as [Hm [He Hg]].
  destruct (_gevent self) eqn:G; cbn [andb].
  - rewrite spawn_all_checks.
    destruct (suspended (check_valid_mx_records w self st)
              && slow w (Base.requests st)); cbn [fst snd];
      match goal with
      | |- context [fold_left merge_value ?vs ?s] =>
          destruct (fold_merge_value vs s) as [E1 [E2 [E3 E4]]]
      end;
      rewrite E1, E2, E3, E4; cbn [map contribution List.concat app];
      rewrite ?app_nil_r, ?He, ?Hm, ?Hg; repeat split; auto.
  - rewrite call_all_checks. cbn [fst snd].
    match goal with
    | |- context [fold_left extend_errors ?vs ?s] =>
        destruct (fold_extend_errors vs s) as [E1 [E2 [E3 E4]]]
    end.
    rewrite E1, E2, E3, E4. cbn [check_nothing value List.concat app].
    rewrite ?app_nil_r, ?He, ?Hm, ?Hg. repeat split; auto.
Qed.

(** C3 as stated fails on [user@]: its domain is present (the empty string)
    and the service has a record for every name, yet the check sends no
    request, caches nothing and reports the error. *)
Lemma empty_domain_counterexample :
  let self := __init__ "user@" false in
  let w := Scenario.world Scenario.one_record in
  let r := check_valid_mx_records w self Scenario.fresh in
  domain self = Some EmptyString /\
  fst (Mx.mxlookup (svc w) EmptyString Scenario.fresh)
    = Base.Ok [(10%Z, "mx1.example.com")] /\
  value r = [mx_error] /\ after r = self /\ dns r = Scenario.fresh /\
  ~ mx_check_as_stated w self Scenario.fresh.
Proof.
  cbv zeta. repeat split; try reflexivity.
  unfold mx_check_as_stated. vm_compute. intros [H _]. inversion H.
Qed.

(** C3, as the code has it: the check returns no error or the one error of
    severity 7.  With the domain absent or empty it returns the error and
    touches nothing: no request is sent.  With any other domain it calls
    [mxlookup]: a [ServerError] gives the error and leaves the instance
    alone; a returned list is stored in [mx_records], and gives the error
    when empty and no error otherwise. *)
Theorem check_valid_mx_records_contract (w : World) (self : EmailChecker)
  (st : Base.State) :
  let r := check_valid_mx_records w self st in
  (value r = [] \/ value r = [mx_error]) /\ severity mx_error = 7%Z /\
  (domain self = None \/ domain self = Some EmptyString ->
   value r = [mx_error] /\ after r = self /\ dns r = st) /\
  (forall d, domain self = Some d -> d <> EmptyString ->
     dns r = snd (Mx.mxlookup (svc w) d st) /\
     match fst (Mx.mxlookup (svc w) d st) with
     | Base.Raise _ => value r = [mx_error] /\ after r = self
     | Base.Ok l =>
         value r = (if Mx.is_nil l then [mx_error] else []) /\
         after r = set_mx_records self (Some l)
     end).
Proof.
  cbv zeta. split; [apply mx_value|]. split; [reflexivity|].
  unfold check_valid_mx_records. split.
  - intros [H | H]; rewrite H; auto.
  - intros d Hd Hne. rewrite Hd. destruct d as [|c t]; [congruence|].
    destruct (Mx.mxlookup (svc w) (String c t) st) as [[l|e] st']; simpl.
    + destruct l; simpl; auto.
    + auto.
Qed.

(** C5, as the code has it: in sequential mode [validate] returns the errors
    the instance already held followed by the lists the checks returned,
    concatenated in discovery order; on an instance that holds no error the
    returned list is exactly that concatenation and its length the sum of
    the lengths. *)
Theorem validate_sequential_concat (w : World) (self : EmailChecker)
  (st : Base.State) :
  _gevent self = false ->
  let returned := fst (fst (validate w self st)) in
  let results := fst (fst (call_all w checks self st)) in
  returned = errors self ++ List.concat results /\
  List.length returned
  = List.length (errors self) + list_sum (map (@List.length Error) results) /\
  (errors self = [] ->
   returned = List.concat results /\
   List.length returned = list_sum (map (@List.length Error) results)).
Proof.
  intros G. cbv zeta. unfold validate. rewrite G.
  destruct (call_all w checks self st) as [[results self1] st1] eqn:E.
  cbn [fst snd].
  assert (H1 : errors self1 = errors self).
  { pose proof (call_all_checks w self st) as Hc. cbv zeta in Hc.
    rewrite E in Hc. injection Hc as _ -> _. apply mx_after. }
  destruct (fold_extend_errors results self1) as [He _]. rewrite He, H1.
  assert (Hlen : forall rs : list (list Error),
             List.length (List.concat rs) = list_sum (map (@List.length Error) rs)).
  { induction rs as [|r rs IH]; simpl; [reflexivity|].
    now rewrite length_app, IH. }
  split; [reflexivity|]. split.
  - now rewrite length_app, Hlen.
  - intros ->. simpl. split; [reflexivity | apply Hlen].
Qed.

(** The scenario [not-an-email], sequentially, on a new instance. *)
Lemma validate_sequential_concat_witness :
  fst (fst (validate (Scenario.world Scenario.one_record)
              (__init__ "not-an-email" false) Scenario.fresh))
  = [] ++ List.concat [[]; [syntax_error]; [mx_error]].
Proof.
  exact (proj1 (validate_sequential_concat (Scenario.world Scenario.one_record)
                  (__init__ "not-an-email" false) Scenario.fresh eq_refl)).
Defined.

(** C5 as stated fails on an instance that already holds errors: after one
    [validate] of [not-an-email], a second one returns four errors while the
    checks returned two. *)
Lemma validate_again_counterexample :
  let w := Scenario.world Scenario.one_record in
  let returned := fst (fst (validate w Scenario.validated_once Scenario.fresh)) in
  let results := fst (fst (call_all w checks Scenario.validated_once Scenario.fresh)) in
  List.length returned = 4 /\
  list_sum (map (@List.length Error) results) = 2 /\
  returned <> List.concat results.
Proof.
  cbv zeta. split; [reflexivity|]. split; [reflexivity|].
  vm_compute. intros H. discriminate H.
Qed.

(** C8: whatever the mode and the DNS service, [validate] on a new instance
    for [not-an-email] returns the syntax error of severity 10 followed by
    the MX error of severity 7, and nothing else. *)
Theorem validate_not_an_email (g : bool) (w : World) (st : Base.State) :
  fst (fst (validate w (__init__ "not-an-email" g) st))
  = [ {| severity := 10; message := "Invalid email address." |};
      {| severity := 7; message := "No MX records found for the domain." |} ].
Proof.
  destruct (validate_result w (__init__ "not-an-email" g) st) as [H _].
  cbv zeta in H. rewrite H. unfold found, abandoned.
  rewrite syntax_value.
  assert (Hd : domain (__init__ "not-an-email" g) = None) by reflexivity.
  unfold check_valid_mx_records. rewrite Hd. cbn [suspended value andb].
  rewrite andb_false_r. reflexivity.
Qed.

(** C10: [dir] lists the names in lexicographic order, so the checks are
    found as [check_nothing], [check_valid_email_string],
    [check_valid_mx_records], and the errors a run of [validate] adds are
    those of the syntax check followed by those of the MX check, in either
    mode; when a new instance gets both errors the one of severity 10 comes
    first. *)
Theorem syntax_error_before_mx_error (w : World) (self : EmailChecker)
  (st : Base.State) :
  StronglySorted str_le dir /\
  check_names
  = ["check_nothing"; "check_valid_email_string"; "check_valid_mx_records"] /\
  severity syntax_error = 10%Z /\ severity mx_error = 7%Z /\
  (exists syn mx,
     fst (fst (validate w self st)) = errors self ++ syn ++ mx /\
     (syn = [] \/ syn = [syntax_error]) /\ (mx = [] \/ mx = [mx_error])) /\
  (errors self = [] ->
   In syntax_error (fst (fst (validate w self st))) ->
   In mx_error (fst (fst (validate w self st))) ->
   fst (fst (validate w self st)) = [syntax_error; mx_error]).
Proof.
  split; [apply str_sort_sorted|]. split; [reflexivity|].
  split; [reflexivity|]. split; [reflexivity|].
  destruct (validate_result w self st) as [H _]. cbv zeta in H. rewrite H.
  unfold found. rewrite syntax_value.
  set (mx := if abandoned w self st then []
             else value (check_valid_mx_records w self st)).
  assert (Hmx : mx = [] \/ mx = [mx_error]).
  { subst mx. destruct (abandoned w self st); [now left | apply mx_value]. }
  split.
  - eexists _, mx. split; [reflexivity|]. split; [|exact Hmx].
    destruct (Re.matches _ _); auto.
  - intros ->. cbn [app].
    destruct (Re.matches _ _); destruct Hmx as [-> | ->]; simpl; intros Hs Hm;
      try reflexivity; exfalso;
      repeat match goal with
             | H : _ \/ _ |- _ => destruct H
             | H : False |- _ => destruct H
             | H : _ = _ |- _ => discriminate H
             end.
Qed.

End CheckerFacts.

(** ** The cache [mx_records] over a session *)

Module SessionFacts.
Import Str Checker CheckerFacts Session Notions.

(** The MX check leaves [mx_records] alone or stores the list that
    [mxlookup] returned for a non-empty domain. *)
Lemma mx_check_writes (w : World) (self : EmailChecker) (st : Base.State) :
  let r := check_valid_mx_records w self st in
  mx_records (after r) = mx_records self \/
  exists d l, domain self = Some d /\ d <> EmptyString /\
              fst (Mx.mxlookup (svc w) d st) = Base.Ok l /\
              mx_records (after r) = Some l.
Proof.
  cbv zeta. unfold check_valid_mx_records.
  destruct (domain self) as [[|c t]|] eqn:D; simpl; auto.
  destruct (Mx.mxlookup (svc w) (String c t) st) as [[l|e] st'] eqn:L; simpl; auto.
  right. exists (String c t), l.
  split; [reflexivity|]. split; [discriminate|]. split; [now rewrite L|].
  destruct l; reflexivity.
Qed.

(** One use of the instance keeps the address, and changes [mx_records] only
    through the MX check, run directly or by [validate], on a lookup that
    returned. *)
Lemma step_writes (w : World) (op : Op) (self : EmailChecker) (st : Base.State) :
  let self' := fst (step w op (self, st)) in
  email self' = email self /\
  (mx_records self' = mx_records self \/
   (op = Call_check_valid_mx_records \/ op = Call_validate) /\
   exists d l, domain self = Some d /\ d <> EmptyString /\
               fst (Mx.mxlookup (svc w) d st) = Base.Ok l /\
               mx_records self' = Some l).
Proof.
  cbv zeta. destruct op; cbn [step fst]; auto.
  - destruct (validate_result w self st) as [_ [_ [He [_ [Hm _]]]]].
    cbv zeta in He, Hm.
    destruct (validate w self st) as [[r self'] st']. cbn [fst snd] in *.
    split; [exact He|]. rewrite Hm.
    destruct (abandoned w self st); [now left|].
    destruct (mx_check_writes w self st) as [H | H]; [now left|].
    right. split; [now right | exact H].
  - rewrite (proj1 (syntax_inert w self st)). auto.
  - split; [apply mx_after|].
    destruct (mx_check_writes w self st) as [H | H]; [now left|].
    right. split; [now left | exact H].
Qed.

(** The address never changes over a session. *)
Lemma run_email (w : World) (ops : list Op) : forall self st,
  email (fst (run w ops (self, st))) = email self.
Proof.
  unfold run. induction ops as [|op ops IH]; intros self st; cbn [fold_left];
    [reflexivity|].
  pose proof (step_writes w op self st) as H. cbv zeta in H.
  destruct (step w op (self, st)) as [self' st'].
  rewrite IH. apply H.
Qed.

(** While no lookup can return, [mx_records] stays [None]. *)
Lemma run_unresolvable (w : World) (ops : list Op) : forall self st,
  ~ resolvable w (email self) -> mx_records self = None ->
  mx_records (fst (run w ops (self, st))) = None.
Proof.
  unfold run. induction ops as [|op ops IH]; intros self st Hno Hnone;
    cbn [fold_left]; [exact Hnone|].
  pose proof (step_writes w op self st) as H. cbv zeta in H.
  destruct (step w op (self, st)) as [self' st']. cbn [fst] in H.
  destruct H as [He [Hsame | [_ [d [l [Hd [Hne [Hl _]]]]]]]].
  - apply IH; [now rewrite He | congruence].
  - exfalso. apply Hno. exists d, l, st. auto.
Qed.

(** C7: [mx_records] is [None] at construction; a use of the instance
    changes it only if that use is the MX check, run directly or by
    [validate], and [mxlookup] returned for a non-empty domain, whose list
    is then stored; over any session it stays [None] when the domain is
    absent or empty, and when every lookup for the domain raises. *)
Theorem mx_records_written_on_success (w : World) (address : string) (g : bool) :
  mx_records (__init__ address g) = None /\
  (forall op self st,
     mx_records (fst (step w op (self, st))) <> mx_records self ->
     (op = Call_check_valid_mx_records \/ op = Call_validate) /\
     exists d l, domain self = Some d /\ d <> EmptyString /\
                 fst (Mx.mxlookup (svc w) d st) = Base.Ok l /\
                 mx_records (fst (step w op (self, st))) = Some l) /\
  (forall ops st,
     domain (__init__ address g) = None \/
     domain (__init__ address g) = Some EmptyString ->
     mx_records (fst (run w ops (__init__ address g, st))) = None) /\
  (forall ops st d,
     domain (__init__ address g) = Some d ->
     (forall st', exists e, fst (Mx.mxlookup (svc w) d st') = Base.Raise e) ->
     mx_records (fst (run w ops (__init__ address g, st))) = None).
Proof.
  split; [reflexivity|]. split; [|split].
  - intros op self st Hch.
    destruct (step_writes w op self st) as [_ [H | H]]; [contradiction | exact H].
  - intros ops st Hd. apply run_unresolvable; [|reflexivity].
    intros [d [l [st' [Hd' [Hne _]]]]]. unfold domain in Hd. cbn [email __init__] in *.
    destruct Hd as [Hd | Hd]; congruence.
  - intros ops st d Hd Hraise. apply run_unresolvable; [|reflexivity].
    intros [d' [l [st' [Hd' [_ Hl]]]]]. unfold domain in Hd. cbn [email __init__] in *.
    assert (d' = d) as -> by congruence.
    destruct (Hraise st') as [e He]. congruence.
Qed.

(** A session on a service that fails every request: the cache stays
    empty. *)
Lemma mx_records_written_on_success_witness :
  mx_records
    (fst (run (Scenario.world Scenario.failing)
            [Call_validate; Call_check_valid_mx_records; Call_validate]
            (__init__ "user@nonexistent-domain-xyz.invalid" false, Scenario.fresh)))
  = None.
Proof.
  apply (proj2 (proj2 (proj2
           (mx_records_written_on_success (Scenario.world Scenario.failing)
              "user@nonexistent-domain-xyz.invalid" false)))
         _ _ "nonexistent-domain-xyz.invalid").
  - reflexivity.
  - intros st'. rewrite MxFacts.mxlookup_dnslookup, MxFacts.dnslookup_cases.
    simpl. eexists. reflexivity.
Defined.

End SessionFacts.

(** ** Running [validate] again *)

Module RepeatFacts.
Import Str Checker CheckerFacts MxFacts Notions.

Lemma mxlookup_keeps_rotation (s : Base.Service) (d : string) (st : Base.State) :
  Base.server_rotate (Base.defaults (snd (Mx.mxlookup s d st)))
  = Base.server_rotate (Base.defaults st).
Proof.
  rewrite mxlookup_dnslookup, dnslookup_cases. cbv zeta.
  assert (H : Base.server_rotate (configured s st)
              = Base.server_rotate (Base.defaults st)).
  { unfold configured. now destruct (Mx.is_nil _). }
  destruct (negb _); [exact H|].
  destruct (_ && _); [destruct (negb _)|]; exact H.
Qed.

(** With fixed replies the outcome of a lookup depends on the library state
    through the rotation flag only. *)
Lemma mxlookup_stationary (s : Base.Service) (d : string) (st1 st2 : Base.State) :
  (forall k name qtype, Base.reply s k name qtype = Base.reply s 0 name qtype) ->
  Base.server_rotate (Base.defaults st1) = Base.server_rotate (Base.defaults st2) ->
  fst (Mx.mxlookup s d st1) = fst (Mx.mxlookup s d st2).
Proof.
  intros Hfix Hrot. rewrite !mxlookup_dnslookup, !dnslookup_cases. cbv zeta.
  rewrite (Hfix (Base.requests st1)), (Hfix (S (Base.requests st1))),
    (Hfix (Base.requests st2)), (Hfix (S (Base.requests st2))), Hrot.
  repeat match goal with
         | |- context [if ?b then _ else _] => destruct b
         end; reflexivity.
Qed.

(** The MX check leaves the rotation flag as it was. *)
Lemma mx_check_keeps_rotation (w : World) (self : EmailChecker) (st : Base.State) :
  Base.server_rotate (Base.defaults (dns (check_valid_mx_records w self st)))
  = Base.server_rotate (Base.defaults st).
Proof.
  unfold check_valid_mx_records.
  destruct (domain self) as [[|c t]|]; try reflexivity.
  pose proof (mxlookup_keeps_rotation (svc w) (String c t) st) as H.
  destruct (Mx.mxlookup (svc w) (String c t) st) as [[l|e] st']; cbn [snd] in H.
  - destruct (Nat.eqb _ _); exact H.
  - exact H.
Qed.

(** With fixed outcomes, what a run finds depends on the address, the mode
    and the rotation flag only. *)
Lemma found_stationary (w : World) (self1 self2 : EmailChecker)
  (st1 st2 : Base.State) :
  stationary w ->
  email self1 = email self2 -> _gevent self1 = _gevent self2 ->
  Base.server_rotate (Base.defaults st1) = Base.server_rotate (Base.defaults st2) ->
  found w self1 st1 = found w self2 st2.
Proof.
  intros [Hfix Hslow] He Hg Hrot. unfold found, abandoned.
  rewrite !syntax_value, He, Hg, (Hslow (Base.requests st1)),
    (Hslow (Base.requests st2)).
  assert (Hd : domain self1 = domain self2) by (unfold domain; now rewrite He).
  pose proof (fun d => mxlookup_stationary (svc w) d st1 st2 Hfix Hrot) as Hl.
  assert (Hv : value (check_valid_mx_records w self1 st1)
               = value (check_valid_mx_records w self2 st2) /\
               suspended (check_valid_mx_records w self1 st1)
               = suspended (check_valid_mx_records w self2 st2)).
  { unfold check_valid_mx_records. rewrite Hd.
    destruct (domain self2) as [[|c t]|]; auto.
    specialize (Hl (String c t)).
    destruct (Mx.mxlookup (svc w) (String c t) st1) as [[l1|e1] st1'];
      destruct (Mx.mxlookup (svc w) (String c t) st2) as [[l2|e2] st2'];
      cbn [fst] in Hl; try discriminate; auto.
    injection Hl as ->. destruct (Nat.eqb _ _); auto. }
  destruct Hv as [-> ->]. reflexivity.
Qed.

Lemma app_same_iff {A} (l f : list A) : l ++ f = l <-> f = [].
Proof.
  split; [|intros ->; apply app_nil_r].
  intros H. apply (f_equal (@List.length A)) in H. rewrite length_app in H.
  destruct f; [reflexivity | simpl in H; lia].
Qed.

(** C1, as the code has it: with fixed MX outcomes the second [validate]
    finds what the first found and appends it again to the list the first
    returned; the two lists hold the same errors, and they are the same
    list exactly when nothing was found.  Both calls return the list held
    by [self.errors]: after the second call that list reads as the second
    result. *)
Theorem validate_twice (w : World) (self : EmailChecker) (st : Base.State) :
  stationary w ->
  let first := validate w self st in
  let second := validate w (snd (fst first)) (snd first) in
  fst (fst first) = errors self ++ found w self st /\
  fst (fst second) = fst (fst first) ++ found w self st /\
  (forall e, In e (fst (fst second)) <-> In e (fst (fst first))) /\
  (fst (fst second) = fst (fst first) <-> found w self st = []) /\
  errors (snd (fst second)) = fst (fst second).
Proof.
  intros Hst. cbv zeta.
  destruct (validate_result w self st) as [H1 [E1 [M1 [G1 [_ D1]]]]].
  cbv zeta in *.
  destruct (validate w self st) as [[r1 self1] st1]. cbn [fst snd] in *.
  destruct (validate_result w self1 st1) as [H2 [E2 _]]. cbv zeta in H2, E2.
  assert (Hf : found w self1 st1 = found w self st).
  { apply found_stationary; auto. subst st1. apply mx_check_keeps_rotation. }
  rewrite E2, H2, Hf, E1, <- H1. split; [reflexivity|]. split; [reflexivity|].
  split; [|split; [apply app_same_iff | reflexivity]].
  intros e. rewrite in_app_iff. split; [|now left].
  intros [H | H]; [exact H|]. rewrite H1. apply in_or_app. now right.
Qed.

Lemma stationary_one_record : stationary (Scenario.world Scenario.one_record).
Proof. split; reflexivity. Qed.

(** Two runs on [not-an-email]: the second list is the first one twice. *)
Lemma validate_twice_witness :
  let w := Scenario.world Scenario.one_record in
  let first := validate w (__init__ "not-an-email" false) Scenario.fresh in
  let second := validate w (snd (fst first)) (snd first) in
  fst (fst second) = fst (fst first) ++ [syntax_error; mx_error].
Proof.
  exact (proj1 (proj2 (validate_twice (__init__ "not-an-email" false)
                         Scenario.fresh stationary_one_record))).
Defined.

(** C1 as stated fails: on [not-an-email], with the same service for both
    runs, the first [validate] returns two errors and the second four. *)
Lemma validate_twice_counterexample :
  let w := Scenario.world Scenario.one_record in
  let first := validate w (__init__ "not-an-email" false) Scenario.fresh in
  let second := validate w (snd (fst first)) (snd first) in
  fst (fst first) = [syntax_error; mx_error] /\
  fst (fst second) = [syntax_error; mx_error; syntax_error; mx_error] /\
  fst (fst second) <> fst (fst first).
Proof.
  cbv zeta. split; [reflexivity|]. split; [reflexivity|].
  vm_compute. intros H. discriminate H.
Qed.

End RepeatFacts.

(** ** The scenarios of the specification *)

Module ScenarioFacts.
Import Checker Scenario.

(** A valid address whose domain has a record passes every check. *)
Example validate_user_example_com (g : bool) :
  fst (fst (validate (world one_record) (__init__ "user@example.com" g) fresh)) = [].
Proof. destruct g; vm_compute; reflexivity. Qed.

(** An empty domain: the syntax check fails and the MX check reports the
    error without a lookup. *)
Example validate_user_at (g : bool) :
  fst (fst (validate (world one_record) (__init__ "user@" g) fresh))
  = [syntax_error; mx_error].
Proof. destruct g; vm_compute; reflexivity. Qed.

(** A domain whose lookup fails: one error of severity 7 and none of
    severity 10. *)
Example validate_unresolved (g : bool) :
  fst (fst (validate (world failing)
              (__init__ "user@nonexistent-domain-xyz.invalid" g) fresh))
  = [mx_error].
Proof. destruct g; vm_compute; reflexivity. Qed.

(** A lookup abandoned at the join contributes no error. *)
Example validate_slow_lookup :
  fst (fst (validate {| svc := failing; slow := fun _ => true |}
              (__init__ "user@nonexistent-domain-xyz.invalid" true) fresh))
  = [].
Proof. vm_compute. reflexivity. Qed.

(** An empty first reply with rotation on: the second reply is returned,
    sorted, after two requests. *)
Example mxlookup_second_try :
  Mx.mxlookup second_try "example.com" fresh
  = (Base.Ok [(10%Z, "mx1.example.com"); (20%Z, "mx2.example.com")],
     {| Base.defaults := {| Base.server := ["192.0.2.53"];
                            Base.server_rotate := true |};
        Base.requests := 2 |}).
Proof. vm_compute. reflexivity. Qed.

(** A failed request raises the error that carries its status. *)
Example mxlookup_failing :
  fst (Mx.mxlookup failing "example.com" fresh)
  = Base.Raise {| Base.message := "DNS query status: NXDOMAIN"; Base.code := 3 |}.
Proof. vm_compute. reflexivity. Qed.

(** A quoted local part that holds an [@]: the address is an addr-spec, and
    its domain attribute is the piece between the two [@]. *)
Example quoted_local_part :
  let address :=
    String.append (String "034" "a@b") (String.append (String "034" "@") "example.com") in
  Re.matches Pattern.VALID_ADDRESS_REGEXP address = true /\
  domain (__init__ address false) = Some (String.append "b" (String "034" "")).
Proof. split; vm_compute; reflexivity. Qed.

End ScenarioFacts.

(** * Further properties of the module *)

(** ** Notions *)

Module Further.
Import Str Base Mx Checker.

(** The reply to the last request a lookup sends. *)
Definition last_reply (svc : Service) (domain : string) (st : State) : Response :=
  if retries svc domain st then reply svc (S (requests st)) domain "mx"
  else reply svc (requests st) domain "mx".

(** The instance with its mode set. *)
Definition in_mode (g : bool) (self : EmailChecker) : EmailChecker :=
  {| email := email self; errors := errors self;
     mx_records := mx_records self; _gevent := g |}.

(** Can the pattern match the empty string? *)
Fixpoint nullable (r : Re.regex) : bool :=
  match r with
  | Re.Eps | Re.Star _ => true
  | Re.Seq a b => nullable a && nullable b
  | Re.Alt a b => nullable a || nullable b
  | _ => false
  end.

(** Can a word of the pattern start with [c]? *)
Fixpoint first (r : Re.regex) (c : ascii) : bool :=
  match r with
  | Re.Class items => Re.in_class items c
  | Re.Dot => negb (Ascii.eqb c Re.newline)
  | Re.Seq a b => first a c || (nullable a && first b c)
  | Re.Alt a b => first a c || first b c
  | Re.Star a => first a c
  | _ => false
  end.

(** Is [c] a character of the class [ATEXT]? *)
Definition atext (c : ascii) : bool :=
  match Pattern.ATEXT with
  | Re.Class items => Re.in_class items c
  | _ => false
  end.

Fixpoint all_atext (s : string) : bool :=
  match s with
  | EmptyString => true
  | String c t => atext c && all_atext t
  end.

(** A label: a non-empty run of [ATEXT] characters. *)
Definition label (s : string) : bool :=
  match s with
  | EmptyString => false
  | String _ _ => all_atext s
  end.

(** Labels separated by dots, as in [user.name] or [example.com]. *)
Definition dotted_labels (s : string) : bool :=
  forallb label (split full_stop s).

(** A service like [Scenario.second_try] whose second reply lists the
    records in the other order. *)
Definition second_try_swapped : Service :=
  {| nameservers := ["192.0.2.53"];
     reply := fun k _ _ =>
       match k with
       | O => Scenario.noerror []
       | _ => Scenario.noerror [(10%Z, "mx1.example.com"); (20%Z, "mx2.example.com")]
       end |}.

End Further.

(** ** Sorted lists *)

Section SortedUnique.
Variable A : Type.
Variable le : A -> A -> Prop.
Hypothesis le_antisym : forall x y, le x y -> le y x -> x = y.

(** Under an antisymmetric order a list has one sorted arrangement. *)
Lemma sorted_arrangement_unique : forall l1 l2 : list A,
  StronglySorted le l1 -> StronglySorted le l2 -> Permutation l1 l2 -> l1 = l2.
Proof.
  induction l1 as [|a l1 IH]; intros l2 S1 S2 P.
  - now apply Permutation_nil in P.
  - destruct l2 as [|b l2];
      [apply Permutation_sym in P; now apply Permutation_nil in P|].
    apply StronglySorted_inv in S1. destruct S1 as [S1 F1].
    apply StronglySorted_inv in S2. destruct S2 as [S2 F2].
    assert (Hab : a = b).
    { assert (Ia : In a (b :: l2))
        by (apply (Permutation_in a P); now left).
      assert (Ib : In b (a :: l1))
        by (apply (Permutation_in b (Permutation_sym P)); now left).
      destruct Ia as [-> | Ia]; [reflexivity|].
      destruct Ib as [-> | Ib]; [reflexivity|].
      rewrite Forall_forall in F1, F2. apply le_antisym; auto. }
    subst b. f_equal. apply IH; auto. now apply Permutation_cons_inv in P.
Qed.

End SortedUnique.

Lemma mx_le_antisym (x y : Z * string) : mx_le x y -> mx_le y x -> x = y.
Proof.
  rewrite !mx_le_lex. destruct x as [p e], y as [q f]. simpl.
  intros [H1 | [H1 H1']] [H2 | [H2 H2']]; try lia.
  subst q. f_equal. now apply String.leb_antisym.
Qed.

Lemma str_le_antisym (x y : string) : str_le x y -> str_le y x -> x = y.
Proof. apply String.leb_antisym. Qed.

(** ** More on the lookup *)

Module LookupFacts.
Import Base Mx Notions MxFacts Further.

(** A lookup is decided by the last reply it receives. *)
Lemma mxlookup_by_last_reply (svc : Service) (domain : string) (st : State) :
  mxlookup svc domain st =
  (if success (last_reply svc domain st)
   then Ok (MxSort.sort (map data (answers (last_reply svc domain st))))
   else Raise (server_error (last_reply svc domain st)),
   {| defaults := configured svc st;
      requests := (if retries svc domain st then 2 else 1) + requests st |}).
Proof.
  rewrite mxlookup_dnslookup, dnslookup_cases. unfold last_reply, retries.
  cbv zeta.
  destruct (success (reply svc (requests st) domain "mx")) eqn:S0; cbn [negb andb].
  - destruct (is_nil (answers (reply svc (requests st) domain "mx"))
              && server_rotate (defaults st)).
    + destruct (success (reply svc (S (requests st)) domain "mx"));
        reflexivity.
    + rewrite S0. reflexivity.
  - rewrite S0. reflexivity.
Qed.

(** X1: the [ServerError] that [mxlookup] raises carries the status and the
    rcode of the last reply received (the first when it failed, the second
    when the retry failed), and its message is [DNS query status: ] followed
    by that status. *)
Theorem mxlookup_error_payload (svc : Service) (domain : string) (st : State)
  (e : ServerError) :
  fst (mxlookup svc domain st) = Raise e ->
  let r := last_reply svc domain st in
  success r = false /\
  message e = String.append "DNS query status: " (status (header r)) /\
  code e = rcode (header r).
Proof.
  rewrite mxlookup_by_last_reply. cbn [fst]. cbv zeta.
  destruct (success (last_reply svc domain st)); [discriminate|].
  intros [= <-]. repeat split.
Qed.

Lemma mxlookup_error_payload_witness :
  message {| message := "DNS query status: NXDOMAIN"; code := 3 |}
  = String.append "DNS query status: "
      (status (header (last_reply Scenario.failing "example.com" Scenario.fresh))).
Proof.
  exact (proj1 (proj2 (mxlookup_error_payload Scenario.failing "example.com"
                         Scenario.fresh eq_refl))).
Defined.


(** X3: the list [mxlookup] returns does not depend on the order in which
    the reply lists its answers: two lookups that return, on replies whose
    payloads are rearrangements of each other, return the same list. *)
Theorem mxlookup_answer_order (svc1 svc2 : Service) (domain : string)
  (st1 st2 : State) (l1 l2 : list (Z * string)) :
  fst (mxlookup svc1 domain st1) = Ok l1 ->
  fst (mxlookup svc2 domain st2) = Ok l2 ->
  Permutation (map data (answers (last_reply svc1 domain st1)))
              (map data (answers (last_reply svc2 domain st2))) ->
  l1 = l2.
Proof.
  rewrite !mxlookup_by_last_reply. cbn [fst].
  destruct (success (last_reply svc1 domain st1)); [|discriminate].
  destruct (success (last_reply svc2 domain st2)); [|discriminate].
  intros [= <-] [= <-] P.
  apply (sorted_arrangement_unique mx_le_antisym);
    try apply mx_sort_sorted.
  eapply Permutation_trans; [apply Permutation_sym, MxSort.Permuted_sort|].
  eapply Permutation_trans; [exact P | apply MxSort.Permuted_sort].
Qed.

Lemma mxlookup_answer_order_witness :
  [(10%Z, "mx1.example.com"); (20%Z, "mx2.example.com")]
  = [(10%Z, "mx1.example.com"); (20%Z, "mx2.example.com")].
Proof.
  apply (mxlookup_answer_order Scenario.second_try second_try_swapped
           "example.com" Scenario.fresh Scenario.fresh).
  - reflexivity.
  - reflexivity.
  - apply perm_swap.
Defined.

(** X4: the first record [mxlookup] returns has the lowest preference of
    all the answers of the reply. *)
Theorem mxlookup_most_preferred_first (svc : Service) (domain : string)
  (st : State) (x : Z * string) (l : list (Z * string)) :
  fst (mxlookup svc domain st) = Ok (x :: l) ->
  forall a, In a (answers (last_reply svc domain st)) ->
            (fst x <= fst (data a))%Z.
Proof.
  rewrite mxlookup_by_last_reply. cbn [fst].
  destruct (success (last_reply svc domain st)); [|discriminate].
  intros [= E] a Ha.
  pose proof (mx_sort_sorted (map data (answers (last_reply svc domain st)))) as S.
  pose proof (MxSort.Permuted_sort (map data (answers (last_reply svc domain st)))) as P.
  rewrite E in S, P. apply StronglySorted_inv in S. destruct S as [_ F].
  assert (I : In (data a) (x :: l))
    by (apply (Permutation_in _ P); now apply in_map).
  destruct I as [<- | I]; [lia|].
  rewrite Forall_forall in F. apply F in I. apply mx_le_lex in I. lia.
Qed.

Lemma mxlookup_most_preferred_first_witness :
  (fst (10%Z, "mx1.example.com")
   <= fst (data {| name := "example.com"; data := (20%Z, "mx2.example.com") |}))%Z.
Proof.
  apply (mxlookup_most_preferred_first Scenario.second_try "example.com"
           Scenario.fresh (l := [(20%Z, "mx2.example.com")])).
  - reflexivity.
  - left. reflexivity.
Defined.

End LookupFacts.

(** ** More on the checks and [validate] *)

Module ValidateFacts.
Import Str Base Mx Checker Notions CheckerFacts Further LookupFacts.

(** The MX check reads the address only. *)
Lemma mx_check_same_address (w : World) (self1 self2 : EmailChecker) (st : State) :
  email self1 = email self2 ->
  value (check_valid_mx_records w self1 st) = value (check_valid_mx_records w self2 st) /\
  suspended (check_valid_mx_records w self1 st)
  = suspended (check_valid_mx_records w self2 st).
Proof.
  intros He. assert (Hd : domain self1 = domain self2)
    by (unfold domain; now rewrite He).
  unfold check_valid_mx_records. rewrite Hd.
  destruct (domain self2) as [[|c t]|]; auto.
  destruct (mxlookup (svc w) (String c t) st) as [[l|e] st']; auto.
  destruct (Nat.eqb _ _); auto.
Qed.

Lemma found_kinds (w : World) (self : EmailChecker) (st : State) :
  Forall (fun e => e = syntax_error \/ e = mx_error) (found w self st).
Proof.
  unfold found. apply Forall_app. split.
  - rewrite syntax_value. destruct (Re.matches _ _); [constructor|].
    constructor; [now left | constructor].
  - destruct (abandoned w self st); [constructor|].
    destruct (mx_value w self st) as [-> | ->]; [constructor|].
    constructor; [now right | constructor].
Qed.

(** X5: for the same instance and library state, the list the sequential
    mode returns is the list the gevent mode returns followed by nothing or
    by the MX error; the two modes return the same list when the lookup is
    not slow. *)
Theorem modes_agree_up_to_timeout (w : World) (self : EmailChecker) (st : State) :
  let sequential := fst (fst (validate w (in_mode false self) st)) in
  let concurrent := fst (fst (validate w (in_mode true self) st)) in
  exists rest,
    sequential = concurrent ++ rest /\
    (rest = [] \/ rest = [mx_error]) /\
    (slow w (requests st) = false -> rest = []).
Proof.
  cbv zeta.
  destruct (validate_result w (in_mode false self) st) as [Hs _].
  destruct (validate_result w (in_mode true self) st) as [Hg _].
  cbv zeta in Hs, Hg. rewrite Hs, Hg. unfold found, abandoned.
  rewrite !syntax_value. cbn [in_mode _gevent errors email andb].
  destruct (mx_check_same_address w (in_mode true self) (in_mode false self) st
              eq_refl) as [-> ->].
  set (r := check_valid_mx_records w (in_mode false self) st).
  destruct (suspended r && slow w (requests st)) eqn:E.
  - exists (value r). rewrite app_nil_r, app_assoc. split; [reflexivity|].
    split; [apply mx_value|].
    intros Hslow. rewrite Hslow, andb_false_r in E. discriminate.
  - exists []. rewrite app_nil_r. auto.
Qed.

(** X6: in sequential mode a new instance is reported without error exactly
    when the pattern matches the address and the lookup for its non-empty
    domain returns at least one record. *)
Theorem sequential_clean_iff (w : World) (address : string) (st : State) :
  fst (fst (validate w (__init__ address false) st)) = [] <->
  Re.matches Pattern.VALID_ADDRESS_REGEXP address = true /\
  exists d x l, domain (__init__ address false) = Some d /\ d <> EmptyString /\
                fst (mxlookup (svc w) d st) = Ok (x :: l).
Proof.
  destruct (validate_result w (__init__ address false) st) as [H _].
  cbv zeta in H. rewrite H. unfold found, abandoned.
  rewrite syntax_value. cbn [__init__ _gevent errors email andb app].
  unfold check_valid_mx_records.
  destruct (Re.matches Pattern.VALID_ADDRESS_REGEXP address).
  - cbn [app]. destruct (domain (__init__ address false)) as [[|c t]|] eqn:D.
    + split; [discriminate|]. intros [_ [d [x [l [Hd [Hne _]]]]]]. congruence.
    + destruct (mxlookup (svc w) (String c t) st) as [[[|x l]|e] st'] eqn:L;
        cbn [value Nat.eqb List.length].
      * split; [discriminate|].
        intros [_ [d [x [l [Hd [_ Hl]]]]]]. injection Hd as <-.
        rewrite L in Hl. discriminate.
      * split; [|reflexivity]. intros _. split; [reflexivity|].
        exists (String c t), x, l. rewrite L. repeat split. discriminate.
      * split; [discriminate|].
        intros [_ [d [x [l [Hd [_ Hl]]]]]]. injection Hd as <-.
        rewrite L in Hl. discriminate.
    + split; [discriminate|]. intros [_ [d [x [l [Hd _]]]]]. discriminate.
  - split; [discriminate|]. intros [Hm _]. discriminate.
Qed.

(** X7: one [validate] sends at most two DNS requests, in either mode, and
    leaves the DNS library untouched when the domain is absent or empty. *)
Theorem validate_requests (w : World) (self : EmailChecker) (st : State) :
  let st' := snd (validate w self st) in
  requests st <= requests st' <= 2 + requests st /\
  (domain self = None \/ domain self = Some EmptyString -> st' = st).
Proof.
  destruct (validate_result w self st) as [_ [_ [_ [_ [_ H]]]]].
  cbv zeta in *. rewrite H. unfold check_valid_mx_records.
  destruct (domain self) as [[|c t]|] eqn:D; cbn [dns].
  - split; [lia | reflexivity].
  - assert (Hst : dns (match mxlookup (svc w) (String c t) st with
                       | (Ok l, st') =>
                           if Nat.eqb (List.length l) 0
                           then {| value := [mx_error];
                                   after := set_mx_records self (Some l);
                                   dns := st'; suspended := true |}
                           else {| value := [];
                                   after := set_mx_records self (Some l);
                                   dns := st'; suspended := true |}
                       | (Raise e, st') =>
                           {| value := [mx_error]; after := self;
                              dns := st'; suspended := true |}
                       end) = snd (mxlookup (svc w) (String c t) st)).
    { destruct (mxlookup (svc w) (String c t) st) as [[l|e] st']; cbn [snd];
        [destruct (Nat.eqb _ _)|]; reflexivity. }
    unfold mx_error in Hst. rewrite Hst, mxlookup_by_last_reply. cbn [snd requests].
    split; [destruct (retries _ _ _); lia|].
    intros [Hd | Hd]; discriminate.
  - split; [lia | reflexivity].
Qed.

End ValidateFacts.

(** ** More on sessions *)

Module SessionInvariants.
Import Str Base Mx Checker Notions CheckerFacts Session SessionFacts Further
  LookupFacts ValidateFacts.

(** What the cache may hold for an address: nothing, or a sorted list that a
    lookup for the non-empty domain of the address returned. *)
Definition cache_ok (w : World) (address : string)
  (cache : option (list (Z * string))) : Prop :=
  match cache with
  | None => True
  | Some l =>
      StronglySorted mx_le l /\
      exists d st, getitem (split at_sign address) 1 = Some d /\
                   d <> EmptyString /\ fst (mxlookup (svc w) d st) = Ok l
  end.

Lemma mxlookup_sorted (s : Service) (d : string) (st : State) (l : list (Z * string)) :
  fst (mxlookup s d st) = Ok l -> StronglySorted mx_le l.
Proof.
  rewrite mxlookup_by_last_reply. cbn [fst].
  destruct (success _); [|discriminate]. intros [= <-]. apply mx_sort_sorted.
Qed.

Lemma step_errors (w : World) (op : Op) (self : EmailChecker) (st : State) :
  let self' := fst (step w op (self, st)) in
  _gevent self' = _gevent self /\
  exists added,
    errors self' = errors self ++ added /\
    Forall (fun e => e = syntax_error \/ e = mx_error) added /\
    (op <> Call_validate -> added = []).
Proof.
  cbv zeta. destruct op; cbn [step fst];
    try (split; [reflexivity|]; exists []; rewrite app_nil_r;
         split; [reflexivity|]; split; [constructor | reflexivity]).
  - destruct (validate_result w self st) as [_ [He [_ [Hg _]]]].
    cbv zeta in He, Hg.
    destruct (validate w self st) as [[r self'] st']. cbn [fst snd] in *.
    split; [exact Hg|]. exists (found w self st). split; [exact He|].
    split; [apply found_kinds | congruence].
  - rewrite (proj1 (syntax_inert w self st)).
    split; [reflexivity|]. exists []. rewrite app_nil_r.
    split; [reflexivity|]. split; [constructor | reflexivity].
  - destruct (mx_after w self st) as [_ [He Hg]].
    split; [exact Hg|]. exists []. rewrite app_nil_r.
    split; [exact He|]. split; [constructor | reflexivity].
Qed.

(** X8: over any session the address and the mode never change and the
    error list only grows: it is the list held at the start followed by
    errors that are each the syntax error or the MX error; a session without
    [validate] leaves the list as it was, so calling a check directly never
    records its errors. *)
Theorem session_errors_grow (w : World) (ops : list Op) :
  forall (self : EmailChecker) (st : State),
  let self' := fst (run w ops (self, st)) in
  email self' = email self /\ _gevent self' = _gevent self /\
  exists added,
    errors self' = errors self ++ added /\
    Forall (fun e => e = syntax_error \/ e = mx_error) added /\
    (~ In Call_validate ops -> added = []).
Proof.
  cbv zeta. unfold run. induction ops as [|op ops IH]; intros self st;
    cbn [fold_left].
  - cbn [fst]. split; [reflexivity|]. split; [reflexivity|]. exists [].
    rewrite app_nil_r. split; [reflexivity|]. split; [constructor | reflexivity].
  - pose proof (step_writes w op self st) as [Hm _].
    pose proof (step_errors w op self st) as [Hg [a1 [Ha1 [Fa1 Na1]]]].
    cbv zeta in *.
    destruct (step w op (self, st)) as [self1 st1]. cbn [fst] in *.
    destruct (IH self1 st1) as [Hm2 [Hg2 [a2 [Ha2 [Fa2 Na2]]]]].
    split; [congruence|]. split; [congruence|].
    exists (a1 ++ a2). split; [now rewrite Ha2, Ha1, app_assoc|].
    split; [apply Forall_app; now split|].
    intros Hno. rewrite Na1, Na2; [reflexivity | |].
    + intros Hin. apply Hno. now right.
    + intros ->. apply Hno. now left.
Qed.

Lemma step_cache_ok (w : World) (op : Op) (self : EmailChecker) (st : State) :
  cache_ok w (email self) (mx_records self) ->
  cache_ok w (email self) (mx_records (fst (step w op (self, st)))).
Proof.
  intros Hok. destruct (step_writes w op self st) as [_ [-> | [_ H]]];
    [exact Hok|].
  destruct H as [d [l [Hd [Hne [Hl ->]]]]]. split.
  - eapply mxlookup_sorted; eassumption.
  - exists d, st. auto.
Qed.

(** X9: whatever is done with an instance after its construction,
    [mx_records] is [None] or a list sorted by (preference, exchanger) that
    a lookup for the non-empty domain of the address returned. *)
Theorem session_cache_sorted (w : World) (ops : list Op) (address : string)
  (g : bool) (st : State) :
  match mx_records (fst (run w ops (__init__ address g, st))) with
  | None => True
  | Some l =>
      StronglySorted mx_le l /\
      exists d st', domain (__init__ address g) = Some d /\
                    d <> EmptyString /\ fst (mxlookup (svc w) d st') = Ok l
  end.
Proof.
  change (cache_ok w address
            (mx_records (fst (run w ops (__init__ address g, st))))).
  assert (G : forall self st0,
             cache_ok w (email self) (mx_records self) ->
             cache_ok w (email self) (mx_records (fst (run w ops (self, st0))))).
  { unfold run. induction ops as [|op ops IH]; intros self st0 Hok;
      cbn [fold_left]; [exact Hok|].
    pose proof (step_cache_ok w op self st0 Hok) as H1.
    pose proof (step_writes w op self st0) as [He _]. cbv zeta in He.
    destruct (step w op (self, st0)) as [self1 st1]. cbn [fst] in *.
    rewrite <- He. apply IH. now rewrite He. }
  apply (G (__init__ address g) st). exact I.
Qed.

End SessionInvariants.

(** ** More on the parts of an address and the suggestion *)

Module AddressFacts.
Import Str StrFacts Checker PartsFacts.

(** How often [c] occurs in [s]. *)
Fixpoint occurrences (c : ascii) (s : string) : nat :=
  match s with
  | EmptyString => 0
  | String a t => (if Ascii.eqb a c then 1 else 0) + occurrences c t
  end.

Lemma occurrences_none (c : ascii) (s : string) :
  occurrences c s = 0 <-> contains c s = false.
Proof.
  induction s as [|a t IH]; simpl; [tauto|].
  destruct (Ascii.eqb a c); simpl; [split; discriminate | exact IH].
Qed.

Lemma occurrences_once (c : ascii) (s : string) :
  occurrences c s = 1 <->
  exists r, after_first c s = Some r /\ contains c r = false.
Proof.
  induction s as [|a t IH]; simpl.
  - split; [discriminate | intros [r [H _]]; discriminate].
  - destruct (Ascii.eqb a c); simpl.
    + split.
      * intros H. exists t. split; [reflexivity|].
        apply occurrences_none. lia.
      * intros [r [[= <-] H]]. apply occurrences_none in H. lia.
    + exact IH.
Qed.

Lemma before_first_clean (c : ascii) (s : string) :
  contains c (before_first c s) = false.
Proof.
  induction s as [|a t IH]; simpl; [reflexivity|].
  destruct (Ascii.eqb a c) eqn:E; simpl; [reflexivity|]. now rewrite E.
Qed.

Lemma before_first_app (c : ascii) (u x : string) :
  contains c u = false -> before_first c (String.append u (String c x)) = u.
Proof.
  induction u as [|a t IH]; simpl.
  - now rewrite Ascii.eqb_refl.
  - destruct (Ascii.eqb a c); simpl; [discriminate|]. intros H. now rewrite IH.
Qed.

Lemma append_inv_head (a b c : string) :
  String.append a b = String.append a c -> b = c.
Proof.
  induction a as [|x a IH]; simpl; [auto|]. intros [= H]. auto.
Qed.

Lemma didyoumean_nothing_to_correct_witness :
  didyoumean (fun label => label) (__init__ "bob@gmail.com" false) = None.
Proof.
  apply (didyoumean_nothing_to_correct (fun label => label)
           (__init__ "bob@gmail.com" false) (r := "gmail.com")).
  - reflexivity.
  - reflexivity.
  - reflexivity.
Defined.

(** X11: neither the user name nor the domain ever holds an [@]; and the
    address is its user name, an [@] and its domain exactly when it holds
    one [@] and no more. *)
Theorem parts_recompose_iff (self : EmailChecker) :
  contains at_sign (username self) = false /\
  (forall d, domain self = Some d -> contains at_sign d = false) /\
  (forall d, domain self = Some d ->
     (String.append (username self) (String at_sign d) = email self <->
      occurrences at_sign (email self) = 1)).
Proof.
  rewrite username_before_first, domain_second_piece.
  split; [apply before_first_clean|]. split.
  - intros d. destruct (after_first at_sign (email self)) as [r|]; simpl;
      [|discriminate].
    intros [= <-]. apply before_first_clean.
  - intros d Hd. rewrite occurrences_once.
    destruct (after_first at_sign (email self)) as [r|] eqn:R; simpl in Hd;
      [|discriminate].
    injection Hd as <-. pose proof (first_cut _ _ R) as Hcut. split.
    + intros H. exists r. split; [reflexivity|].
      pose proof (eq_trans H Hcut) as E. apply append_inv_head in E.
      injection E as E. rewrite <- E. apply before_first_clean.
    + intros [r' [[= <-] Hno]]. rewrite (before_first_absent _ _ Hno).
      now rewrite <- Hcut.
Qed.

(** X12: a suggestion is never the address itself, and it keeps the user
    name: the user name of the suggested address is the original one. *)
Theorem suggestion_keeps_username (correct : string -> string)
  (self : EmailChecker) (s : string) (g : bool) :
  didyoumean correct self = Some s ->
  s <> email self /\ username (__init__ s g) = username self.
Proof.
  unfold didyoumean. destruct (domain self) as [[|c t]|]; try discriminate.
  cbv zeta.
  destruct (String.eqb_spec
              (String.append (username self)
                 (String.append "@" (join "." (map correct (split full_stop (String c t))))))
              (email self)) as [E|E]; [discriminate|].
  intros [= <-]. split; [exact E|].
  rewrite (username_before_first (__init__ _ g)). cbn [email __init__].
  rewrite (username_before_first self). apply before_first_app.
  apply before_first_clean.
Qed.

Lemma suggestion_keeps_username_witness :
  "bob@gmail.com" <> email (__init__ "bob@gnail.com" false) /\
  username (__init__ "bob@gmail.com" true) = username (__init__ "bob@gnail.com" false).
Proof.
  apply (suggestion_keeps_username Scenario.correct_gnail
           (__init__ "bob@gnail.com" false)).
  reflexivity.
Defined.

(** X13: when the address holds a second [@] and its domain is not empty,
    [didyoumean] suggests the address cut before the second [@], even with a
    collaborator that changes no label. *)
Theorem suggestion_cuts_at_second_at (correct : string -> string)
  (self : EmailChecker) (r : string) :
  (forall label, correct label = label) ->
  after_first at_sign (email self) = Some r ->
  contains at_sign r = true ->
  before_first at_sign r <> EmptyString ->
  didyoumean correct self
  = Some (String.append (username self) (String at_sign (before_first at_sign r))).
Proof.
  intros Hid Hr Hat Hne. unfold didyoumean.
  rewrite domain_second_piece, Hr. simpl option_map.
  destruct (before_first at_sign r) as [|c t] eqn:D; [congruence|].
  cbv zeta. rewrite (map_id_ext _ _ Hid).
  change "."%string with (String full_stop EmptyString). rewrite join_split.
  change (String.append "@" (String c t)) with (String at_sign (String c t)).
  destruct (String.eqb_spec (String.append (username self) (String at_sign (String c t)))
              (email self)) as [E|E]; [|reflexivity].
  exfalso. pose proof (first_cut _ _ Hr) as Hcut.
  rewrite username_before_first in E. pose proof (eq_trans E Hcut) as E'.
  apply append_inv_head in E'. injection E' as E'. rename E' into E2.
  pose proof (before_first_clean at_sign r) as Hc. rewrite D, E2 in Hc.
  congruence.
Qed.

Lemma suggestion_cuts_at_second_at_witness :
  didyoumean (fun label => label) (__init__ "a@b@c" false) = Some "a@b".
Proof.
  apply (suggestion_cuts_at_second_at (fun label => label)
           (__init__ "a@b@c" false) (r := "b@c")).
  - reflexivity.
  - reflexivity.
  - reflexivity.
  - discriminate.
Defined.

End AddressFacts.

(** ** More on the address pattern *)

Module SyntaxFacts.
Import Str StrFacts Re ReFacts Pattern PatternFacts Checker CheckerFacts
  PartsFacts Further.

Lemma Lang_Seq_inv (a b : regex) (s : string) :
  Lang (Seq a b) s ->
  exists u v, s = String.append u v /\ Lang a u /\ Lang b v.
Proof. intros H. inversion H; subst. eauto. Qed.

Lemma Lang_Class_inv (items : list item) (s : string) :
  Lang (Class items) s ->
  exists c, s = String c EmptyString /\ in_class items c = true.
Proof. intros H. inversion H; subst. eauto. Qed.

Lemma append_empty (u v : string) :
  String.append u v = EmptyString -> u = EmptyString /\ v = EmptyString.
Proof. destruct u; simpl; [auto | discriminate]. Qed.

(** A pattern that derives the empty string is nullable. *)
Lemma Lang_nullable (r : regex) (s : string) :
  Lang r s -> s = EmptyString -> nullable r = true.
Proof.
  induction 1 as [|items c Hc|c Hc|a b u v Hu IHu Hv IHv|a b u Hu IHu
                 |a b u Hu IHu|a|a u v Hu IHu Hv IHv]; intros E; simpl;
    try reflexivity; try discriminate.
  - apply append_empty in E. destruct E as [-> ->]. now rewrite IHu, IHv.
  - now rewrite IHu.
  - rewrite IHu by assumption. apply orb_true_r.
Qed.

(** The first character of a derived string is one the pattern can start
    with. *)
Lemma Lang_first (r : regex) (s : string) :
  Lang r s -> forall c t, s = String c t -> first r c = true.
Proof.
  induction 1 as [|items c Hc|c Hc|a b u v Hu IHu Hv IHv|a b u Hu IHu
                 |a b u Hu IHu|a|a u v Hu IHu Hv IHv]; intros x t E; simpl;
    try discriminate.
  - now injection E as <- _.
  - injection E as <- _. now destruct (Ascii.eqb_spec c newline).
  - destruct u as [|y u]; simpl in E.
    + rewrite (Lang_nullable Hu eq_refl), (IHv _ _ E). apply orb_true_r.
    + injection E as -> _. now rewrite (IHu _ _ eq_refl).
  - now rewrite (IHu _ _ E).
  - rewrite (IHu _ _ E). apply orb_true_r.
  - destruct u as [|y u]; simpl in E.
    + exact (IHv _ _ E).
    + injection E as -> _. exact (IHu _ _ eq_refl).
Qed.

Lemma contains_app (c : ascii) (u v : string) :
  contains c (String.append u v) = contains c u || contains c v.
Proof.
  induction u as [|a u IH]; simpl; [reflexivity|].
  now rewrite IH, orb_assoc.
Qed.

(** An addr-spec is a local part, an [@] and a domain. *)
Lemma addr_spec_parts (s : string) :
  addr_spec s ->
  exists u v, s = String.append u (String at_sign v) /\
              Lang LOCAL_PART u /\ Lang DOMAIN v.
Proof.
  unfold addr_spec, ADDR_SPEC. intros H.
  apply Lang_Seq_inv in H. destruct H as [u [w [-> [Hu Hw]]]].
  apply Lang_Seq_inv in Hw. destruct Hw as [a [v [-> [Ha Hv]]]].
  apply Lang_Class_inv in Ha. destruct Ha as [c [-> Hc]].
  exists u, v. split; [|now split].
  assert (c = at_sign) as ->; [|reflexivity].
  unfold in_class in Hc. simpl in Hc. rewrite orb_false_r in Hc.
  apply N.eqb_eq in Hc. rewrite <- (ascii_N_embedding c), Hc. reflexivity.
Qed.

(** X14: the syntax check returns no error exactly when the address is an
    addr-spec of the grammar or an addr-spec followed by one newline, and
    the one error of severity 10 otherwise. *)
Theorem syntax_check_accepts (w : World) (self : EmailChecker) (st : Base.State) :
  (value (check_valid_email_string w self st) = [] <->
   addr_spec (email self) \/
   exists s, email self = String.append s (String newline EmptyString) /\
             addr_spec s) /\
  (value (check_valid_email_string w self st) = [] \/
   value (check_valid_email_string w self st)
   = [ {| severity := 10; message := "Invalid email address." |} ]).
Proof.
  rewrite syntax_value, <- VALID_ADDRESS_REGEXP_accepts.
  destruct (matches VALID_ADDRESS_REGEXP (email self)); split; auto;
    split; try reflexivity; discriminate.
Qed.

(** X15: an address that passes the syntax check holds an [@] after a
    non-empty user name, so its domain is not [None]. *)
Theorem accepted_has_parts (w : World) (self : EmailChecker) (st : Base.State) :
  value (check_valid_email_string w self st) = [] ->
  contains at_sign (email self) = true /\
  username self <> EmptyString /\
  domain self <> None.
Proof.
  rewrite syntax_value.
  destruct (matches VALID_ADDRESS_REGEXP (email self)) eqn:M; [|discriminate].
  intros _. apply VALID_ADDRESS_REGEXP_accepts in M.
  assert (H : exists u x, email self = String.append u (String at_sign x) /\
                          Lang LOCAL_PART u).
  { destruct M as [M | [s [E M]]]; apply addr_spec_parts in M;
      destruct M as [u [v [-> [Hu _]]]].
    - eauto.
    - exists u, (String.append v (String newline EmptyString)).
      split; [|exact Hu]. rewrite E, append_assoc. reflexivity. }
  destruct H as [u [x [E Hu]]].
  assert (Hat : contains at_sign (email self) = true).
  { rewrite E, contains_app. simpl. apply orb_true_r. }
  split; [exact Hat|]. split.
  - rewrite username_before_first, E.
    destruct u as [|c u].
    + pose proof (Lang_nullable Hu eq_refl) as N.
      vm_compute in N. discriminate.
    + pose proof (Lang_first Hu eq_refl) as F. simpl.
      destruct (Ascii.eqb_spec c at_sign) as [->|]; [|discriminate].
      vm_compute in F. discriminate.
  - rewrite domain_none_iff. congruence.
Qed.

Lemma accepted_has_parts_witness :
  contains at_sign "user@example.com" = true /\
  username (__init__ "user@example.com" false) <> EmptyString /\
  domain (__init__ "user@example.com" false) <> None.
Proof.
  apply (accepted_has_parts (Scenario.world Scenario.one_record)
           (__init__ "user@example.com" false) Scenario.fresh).
  vm_compute. reflexivity.
Defined.

End SyntaxFacts.

(** ** Plain addresses *)

Module PlainFacts.
Import Str StrFacts Re ReFacts Pattern PatternFacts Checker CheckerFacts Further.

Lemma Lang_atext (c : ascii) : atext c = true -> Lang ATEXT (String c EmptyString).
Proof. intros H. unfold ATEXT. constructor. exact H. Qed.

Lemma Lang_all_atext (t : string) : all_atext t = true -> Lang (Star ATEXT) t.
Proof.
  induction t as [|c t IH]; simpl; intros H; [constructor|].
  apply andb_prop in H. destruct H as [Hc Ht].
  change (String c t) with (String.append (String c EmptyString) t).
  constructor; [now apply Lang_atext | now apply IH].
Qed.

Lemma Lang_label (l : string) : label l = true -> Lang (Plus ATEXT) l.
Proof.
  destruct l as [|c t]; simpl; [discriminate|]. intros H.
  apply andb_prop in H. destruct H as [Hc Ht].
  change (String c t) with (String.append (String c EmptyString) t).
  unfold Plus. constructor; [now apply Lang_atext | now apply Lang_all_atext].
Qed.

(** The labels after the first, each behind its dot. *)
Lemma Lang_more_labels (rest : list string) :
  forallb label rest = true ->
  exists tail,
    (forall l0, join "." (l0 :: rest) = String.append l0 tail) /\
    Lang (Star (Seq (Lit full_stop) (Plus ATEXT))) tail.
Proof.
  induction rest as [|l1 rest IH]; intros H.
  - exists EmptyString. split; [|constructor].
    intros l0. simpl. now rewrite append_nil_r.
  - simpl in H. apply andb_prop in H. destruct H as [H1 Hr].
    destruct (IH Hr) as [tail [Hj Ht]].
    exists (String.append (String full_stop l1) tail). split.
    + intros l0. change (join "." (l0 :: l1 :: rest))
        with (String.append l0 (String.append "." (join "." (l1 :: rest)))).
      rewrite Hj. reflexivity.
    + constructor; [|exact Ht].
      change (String full_stop l1)
        with (String.append (String full_stop EmptyString) l1).
      constructor; [now constructor | now apply Lang_label].
Qed.

Lemma Lang_dotted_labels (s : string) :
  dotted_labels s = true -> Lang DOT_ATOM_TEXT s.
Proof.
  unfold dotted_labels. intros H.
  pose proof (join_split full_stop s) as J.
  destruct (split full_stop s) as [|l0 rest] eqn:E;
    [now apply split_nonempty in E|].
  simpl in H. apply andb_prop in H. destruct H as [H0 Hr].
  destruct (Lang_more_labels rest Hr) as [tail [Hj Ht]].
  change (String full_stop EmptyString) with "."%string in J.
  rewrite Hj in J. rewrite <- J. unfold DOT_ATOM_TEXT.
  constructor; [now apply Lang_label | exact Ht].
Qed.

Lemma Lang_no_CFWS : Lang CFWS_q EmptyString.
Proof.
  change EmptyString with (String.append EmptyString EmptyString).
  unfold CFWS_q, CFWS_head, Opt. constructor; [constructor|].
  apply L_AltR. constructor.
Qed.

Lemma Lang_DOT_ATOM (s : string) : Lang DOT_ATOM_TEXT s -> Lang DOT_ATOM s.
Proof.
  intros H. unfold DOT_ATOM.
  change s with (String.append EmptyString s).
  constructor; [apply Lang_no_CFWS|].
  rewrite <- (append_nil_r s) at 1.
  constructor; [exact H | apply Lang_no_CFWS].
Qed.

(** X16: an address made of dot-separated labels of [ATEXT] characters, an
    [@] and again such labels passes the syntax check. *)
Theorem plain_address_accepted (w : World) (self : EmailChecker)
  (st : Base.State) (u v : string) :
  email self = String.append u (String at_sign v) ->
  dotted_labels u = true -> dotted_labels v = true ->
  value (check_valid_email_string w self st) = [].
Proof.
  intros E Hu Hv. rewrite syntax_value.
  assert (A : addr_spec (email self)).
  { rewrite E. unfold addr_spec, ADDR_SPEC.
    constructor.
    - apply L_AltL. now apply Lang_DOT_ATOM, Lang_dotted_labels.
    - change (String at_sign v)
        with (String.append (String at_sign EmptyString) v).
      constructor; [now constructor|].
      apply L_AltL. now apply Lang_DOT_ATOM, Lang_dotted_labels. }
  assert (M : matches VALID_ADDRESS_REGEXP (email self) = true)
    by (apply VALID_ADDRESS_REGEXP_accepts; now left).
  now rewrite M.
Qed.

Lemma plain_address_accepted_witness :
  value (check_valid_email_string (Scenario.world Scenario.one_record)
           (__init__ "first.last@mail.example.com" false) Scenario.fresh) = [].
Proof.
  apply (@plain_address_accepted (Scenario.world Scenario.one_record)
           (__init__ "first.last@mail.example.com" false) Scenario.fresh
           "first.last" "mail.example.com").
  - reflexivity.
  - reflexivity.
  - reflexivity.
Defined.

End PlainFacts.

(** ** The order of discovery *)

Module DiscoveryFacts.
Import Str Checker.

(** X17: the checks are found in the same order however the class body
    orders its definitions: for every rearrangement of the attribute names,
    the names kept from the sorted listing are [check_nothing],
    [check_valid_email_string], [check_valid_mx_records], in that order. *)
Theorem discovery_ignores_definition_order (names : list string) :
  Permutation attributes names ->
  filter (startswith "check_") (StrSort.sort names)
  = ["check_nothing"; "check_valid_email_string"; "check_valid_mx_records"].
Proof.
  intros P.
  assert (E : StrSort.sort names = dir).
  { unfold dir. apply (sorted_arrangement_unique str_le_antisym);
      try apply str_sort_sorted.
    eapply Permutation_trans; [apply Permutation_sym, StrSort.Permuted_sort|].
    eapply Permutation_trans; [apply Permutation_sym, P|].
    apply StrSort.Permuted_sort. }
  rewrite E. reflexivity.
Qed.

Lemma discovery_ignores_definition_order_witness :
  filter (startswith "check_") (StrSort.sort (rev attributes))
  = ["check_nothing"; "check_valid_email_string"; "check_valid_mx_records"].
Proof.
  apply discovery_ignores_definition_order. apply Permutation_rev.
Defined.

End DiscoveryFacts.
